(** * gdax-market-indexer: streaming ingest, supervision and shutdown

    A shallow embedding of [gdax-market-indexer.go].  Every goroutine of the
    program is embedded as the sequence of events it performs, given the
    answers of the outside world (the websocket feed, the elastic client) as
    an explicit script.  The whole process is an interleaving of these
    programs over the shared state (the WaitGroup, the context, the bulk
    processor). *)

From Stdlib Require Import ZArith Lia.
From stdpp Require Import base option list strings.

Local Open Scope Z_scope.

(** ** Library data, as far as the program touches it *)

Module time.

(** Go's [time.Time], reduced to what [IsZero] inspects: seconds and
    nanoseconds counted from the zero instant (January 1, year 1 UTC). *)
Record Time := mkTime { sec : Z; nsec : Z }.

Definition zero : Time := mkTime 0 0.

(** [func (t Time) IsZero() bool { return t.sec() == 0 && t.nsec() == 0 }] *)
Definition IsZero (t : Time) : bool := (sec t =? 0) && (nsec t =? 0).

(** Durations in milliseconds. *)
Definition Millisecond : Z := 1.
Definition Second : Z := 1000.

End time.

Module gdax.

(** [gdax.MessageChannel] *)
Record MessageChannel := mkChannel {
  Name : string;
  ProductIds : list string
}.

(** [gdax.Message]: the struct every frame is decoded into and that is
    also used to build the subscribe frame.  The fields kept here are the
    ones the level2 and ticker feeds fill; the remaining string fields of
    the library struct behave like [Price]. *)
Record Message := mkMessage {
  Type_ : string;
  ProductId : string;
  Sequence : Z;
  Time_ : time.Time;
  Price : string;
  Side : string;
  Bids : list (list string);
  Asks : list (list string);
  Changes : list (list string);
  BestBid : string;
  BestAsk : string;
  Channels : list MessageChannel
}.

(** The zero value [gdax.Message{}]. *)
Definition empty : Message :=
  mkMessage "" "" 0 time.zero "" "" [] [] [] "" "" [].




(** A JSON frame as it arrives on the wire: an object in which each key
    may be present or not. *)
Record Frame := mkFrame {
  type_ : option string;
  product_id : option string;
  sequence : option Z;
  time_ : option time.Time;
  price : option string;
  side : option string;
  bids : option (list (list string));
  asks : option (list (list string));
  changes : option (list (list string));
  best_bid : option string;
  best_ask : option string;
  channels : option (list MessageChannel)
}.

Definition noFrame : Frame :=
  mkFrame None None None None None None None None None None None None.


End gdax.

Module ws.

(** What decoding one key does to the destination field: a key that is
    present overwrites it, a key that is absent leaves it as it was. *)
Definition store {A : Type} (old : A) (new : option A) : A :=
  match new with
  | Some v => v
  | None => old
  end.

(** The effect of [wsConn.ReadJSON(&message)] on [message]: the frame is
    decoded into the struct the pointer designates. *)
Definition ReadJSON (message : gdax.Message) (fr : gdax.Frame) : gdax.Message :=
  gdax.mkMessage
    (store (gdax.Type_ message) (gdax.type_ fr))
    (store (gdax.ProductId message) (gdax.product_id fr))
    (store (gdax.Sequence message) (gdax.sequence fr))
    (store (gdax.Time_ message) (gdax.time_ fr))
    (store (gdax.Price message) (gdax.price fr))
    (store (gdax.Side message) (gdax.side fr))
    (store (gdax.Bids message) (gdax.bids fr))
    (store (gdax.Asks message) (gdax.asks fr))
    (store (gdax.Changes message) (gdax.changes fr))
    (store (gdax.BestBid message) (gdax.best_bid fr))
    (store (gdax.BestAsk message) (gdax.best_ask fr))
    (store (gdax.Channels message) (gdax.channels fr)).

End ws.

Module elastic.

(** [elastic.NewBulkIndexRequest().Index(i).Type(t).Doc(d)] *)
Record BulkIndexRequest := mkRequest {
  Index : string;
  Type_ : string;
  Doc : gdax.Message
}.

End elastic.

(** ** Events *)

(** The functions that are started as goroutines (or, for the two stream
    indexers, also called directly by their restart wrapper), with their
    arguments. *)
Inductive Routine :=
| IndexOrderBook (indexName coin : string)
| IndexTicker (indexName coin : string)
| ExitOnCancel
| StopClient
| CloseBulkProcessor.

Inductive Level := InfoLevel | ErrorLevel.

Inductive Event :=
| EvLog (l : Level) (msg : string)       (* logX.Info / logX.Error *)
| EvFatal (msg : string)                 (* logX.Fatal: log, then os.Exit(1) *)
| EvEnter (r : Routine)                  (* the body of [r] starts executing *)
| EvGo (r : Routine)                     (* go r(...) *)
| EvDial (url : string)                  (* wsDialer.Dial(url, nil) is called *)
| EvWriteJSON (m : gdax.Message)         (* wsConn.WriteJSON(m) is called *)
| EvTick                                 (* a value is received from ticker.C *)
| EvReadJSON                             (* wsConn.ReadJSON(&message) is called *)
| EvAdd (r : elastic.BulkIndexRequest)   (* elasticBulkProcessor.Add(r) returned *)
| EvNewTicker (d : Z)                    (* time.NewTicker(d) *)
| EvTickerStop                           (* deferred ticker.Stop() *)
| EvConnClose                            (* deferred wsConn.Close() *)
| EvSleep (d : Z)                        (* time.Sleep(d) *)
| EvWgAdd (n : Z)                        (* wg.Add(n) *)
| EvWgDone                               (* wg.Done() *)
| EvWgWait                               (* wg.Wait() returns *)
| EvCtxDone                              (* <-ctx.Done() returns *)
| EvCancel                               (* cancel() *)
| EvWaitSignal                           (* <-c in waitForSignal returns *)
| EvBulkClose                            (* elasticBulkProcessor.Close() *)
| EvClientStop                           (* elasticClient.Stop() *)
| EvExit (code : Z).                     (* os.Exit(code) *)

Definition Trace := list Event.

(** ** The outside world of one stream task *)

(** A library call either returns or panics. *)
Inductive Outcome (A : Type) :=
| Ret (a : A)
| Panic.
Arguments Ret {A} a.
Arguments Panic {A}.

(** One turn of the read loop: what [ReadJSON] does (the frame it decodes
    and the error it returns, if any) and whether [Add] returns. *)
Record Tick := mkTick {
  readJSON : Outcome (gdax.Frame * option string);
  addRequest : Outcome unit
}.

(** One incarnation of a stream task: the answer of [Dial], the answer of
    [WriteJSON] for the subscribe frame, and the turns of the read loop
    that are observed. *)
Record Life := mkLife {
  dial : Outcome (option string);
  writeJSON : Outcome (option string);
  ticks : list Tick
}.

(** ** The stream tasks *)

(** [tickerTime = time.Millisecond * 500] *)
Definition tickerTime : Z := time.Millisecond * 500.

Definition feedURL : string := "wss://ws-feed.gdax.com".

(** The subscribe frame built by [indexTicker] (channel name "ticker") and
    by [indexOrderBook] (channel name "level2"); the fields that the
    composite literal does not mention keep their zero value. *)
Definition subscribeMessage (channel coin : string) : gdax.Message :=
  gdax.mkMessage "subscribe" "" 0 time.zero "" "" [] [] [] "" ""
    [gdax.mkChannel channel [coin]].

(** [if err != nil { logStream.Error(err.Error()) }] *)
Definition logError (err : option string) : Trace :=
  match err with
  | Some e => [EvLog ErrorLevel e]
  | None => []
  end.

(** One turn of [for _ = range ticker.C { ... }].  The result is the
    events of the turn and the value of [message] after it, or [None] when
    a call panicked and the function is being unwound. *)
Definition iteration (indexName typ : string) (message : gdax.Message)
    (t : Tick) : Trace * option gdax.Message :=
  match readJSON t with
  | Panic => ([EvTick; EvReadJSON], None)
  | Ret (fr, err) =>
      let message := ws.ReadJSON message fr in
      match err with
      | Some e => ([EvTick; EvReadJSON; EvLog ErrorLevel e], Some message)
      | None =>
          if time.IsZero (gdax.Time_ message)
          then ([EvTick; EvReadJSON], Some message)
          else
            let r := elastic.mkRequest indexName typ message in
            match addRequest t with
            | Panic => ([EvTick; EvReadJSON], None)
            | Ret _ => ([EvTick; EvReadJSON; EvAdd r], Some message)
            end
      end
  end.

(** How far an incarnation got. *)
Inductive Exit :=
| Blocked (message : gdax.Message)   (* waiting for the next tick *)
| Panicked.                          (* a panic reached the deferred calls *)

Definition recovered (x : Exit) : bool :=
  match x with
  | Panicked => true
  | Blocked _ => false
  end.

(** The read loop over the observed ticks. *)
Fixpoint readLoop (indexName typ : string) (message : gdax.Message)
    (ts : list Tick) : Trace * Exit :=
  match ts with
  | [] => ([], Blocked message)
  | t :: ts' =>
      match iteration indexName typ message t with
      | (evs, Some message') =>
          let '(tr, x) := readLoop indexName typ message' ts' in
          (evs ++ tr, x)
      | (evs, None) => (evs, Panicked)
      end
  end.

(** The body shared, up to the channel name and the document type, by
    [indexTicker] and [indexOrderBook], between the [defer restart...] of
    its first line and the deferred calls that run when it is unwound.
    [defer wsConn.Close()] is registered once [Dial] has returned and
    [defer ticker.Stop()] once the ticker exists; a panic runs the
    registered ones, last first. *)
Definition stream (channel typ indexName coin : string) (l : Life)
    : Trace * Exit :=
  match dial l with
  | Panic => ([EvDial feedURL], Panicked)
  | Ret err =>
      let connect := EvDial feedURL :: logError err in
      let subscribe := EvWriteJSON (subscribeMessage channel coin) in
      match writeJSON l with
      | Panic => (connect ++ [subscribe; EvConnClose], Panicked)
      | Ret err' =>
          let start :=
            connect ++ subscribe :: logError err'
              ++ [EvGo ExitOnCancel; EvNewTicker tickerTime] in
          match readLoop indexName typ gdax.empty (ticks l) with
          | (tr, Panicked) =>
              (start ++ tr ++ [EvTickerStop; EvConnClose], Panicked)
          | (tr, x) => (start ++ tr, x)
          end
      end
  end.

Definition restartLog (what : string) : string :=
  what +:+ " stream failed, waiting 10 seconds and restatrting".

(** [restartTicker]: runs as the deferred call of [indexTicker];
    [recover()] is non-nil exactly when the body panicked.  [next] stands
    for the recursive call of [indexTicker]. *)
Definition restartTicker (next : string -> string -> Trace)
    (panicked : bool) (indexName coin : string) : Trace :=
  if panicked then
    [EvLog ErrorLevel (restartLog "Ticker"); EvSleep (10 * time.Second);
     EvWgAdd 1] ++ next indexName coin
  else [].

(** [indexTicker], over the lives of its successive incarnations. *)
Fixpoint indexTicker (lives : list Life) (indexName coin : string) : Trace :=
  match lives with
  | [] => []
  | l :: lives' =>
      let '(tr, x) := stream "ticker" "ticker" indexName coin l in
      EvEnter (IndexTicker indexName coin) :: tr
        ++ restartTicker (indexTicker lives') (recovered x) indexName coin
  end.

(** [restartOrderBook]: as [restartTicker], but the source passes
    [coin, indexName] to [indexOrderBook(ctx, indexName, coin, ...)]. *)
Definition restartOrderBook (next : string -> string -> Trace)
    (panicked : bool) (indexName coin : string) : Trace :=
  if panicked then
    [EvLog ErrorLevel (restartLog "Order book"); EvSleep (10 * time.Second);
     EvWgAdd 1] ++ next coin indexName
  else [].

(** [indexOrderBook], over the lives of its successive incarnations. *)
Fixpoint indexOrderBook (lives : list Life) (indexName coin : string) : Trace :=
  match lives with
  | [] => []
  | l :: lives' =>
      let '(tr, x) := stream "level2" "snap-shot" indexName coin l in
      EvEnter (IndexOrderBook indexName coin) :: tr
        ++ restartOrderBook (indexOrderBook lives') (recovered x) indexName coin
  end.

(** ** The process *)

(** [Configuration], as the YAML document fills it. *)
Record Configuration := mkConfiguration {
  ElasticClientBatchSize : Z;
  ElasticClientWorkers : Z;
  ElasticClientFlushInterval : Z;
  ElasticClientStatsEnabled : bool;
  Elastic : list string;
  ElasticUser : string;
  ElasticPassword : string;
  ElasticSniff : bool;
  ElasticIndexName : string;
  GDAXMarkets : list string;
  LogLevel : string
}.

(** The answers of the outside world to one run of the process. *)
Record World := mkWorld {
  newConfiguration : string + Configuration;  (* NewConfiguration(...) *)
  newClient : option string;                  (* error of elastic.NewClient *)
  bulkDo : option string;                     (* error of BulkProcessor()...Do(ctx) *)
  indexExists : string + bool;                (* IndexExists(...).Do(ctx) *)
  readTemplate : option string;               (* error of ioutil.ReadFile *)
  createIndex : option string;                (* error of CreateIndex(...).Do(ctx) *)
  bulkClose : option string;                  (* error of elasticBulkProcessor.Close() *)
  lives : Routine -> list Life                (* the feed, per stream goroutine *)
}.

(** The text of [errors.Wraps(err, msg)] and [errors.Wrapf(err, msg)]. *)
Definition Wraps (err msg : string) : string := msg +:+ ": " +:+ err.

(** A stretch of [main] that may end in [Fatal]: its events and whether
    control goes on. *)
Definition andThen (p : Trace * bool) (k : Trace) : Trace :=
  if p.2 then p.1 ++ k else p.1.

Definition initializeElasticClient (w : World) : Trace * bool :=
  match newClient w with
  | Some e => ([EvFatal (Wraps e "Could not connect to elastic cluster")], false)
  | None =>
      ([EvLog InfoLevel "Elastic client successfully initialized";
        EvWgAdd 1; EvGo StopClient], true)
  end.

Definition initializeElasticBulkProcessor (w : World) : Trace * bool :=
  match bulkDo w with
  | Some e => ([EvFatal (Wraps e "Could not start bulk processor")], false)
  | None =>
      ([EvLog InfoLevel "Elastic bulk processor successfully initialized";
        EvWgAdd 1; EvGo CloseBulkProcessor], true)
  end.

Definition initializeIndex (w : World) (config : Configuration) : Trace * bool :=
  let name := ElasticIndexName config in
  let hello := EvLog InfoLevel ("Initializing index " +:+ name) in
  match indexExists w with
  | inl e => ([hello; EvFatal e], false)
  | inr true =>
      ([hello; EvLog InfoLevel ("Index " +:+ name +:+ " exists, nothing to do")],
       true)
  | inr false =>
      match readTemplate w with
      | Some e =>
          ([hello;
            EvFatal (Wraps e "Unable to refresh index. Error opening elastic-template.json")],
           false)
      | None =>
          match createIndex w with
          | Some e =>
              ([hello;
                EvFatal (Wraps e ("Unable to create index. Error PUTing index definition for "
                                  +:+ name))],
               false)
          | None => ([hello; EvLog InfoLevel ("Created index " +:+ name)], true)
          end
      end
  end.

(** The body of [for _, market := range config.GDAXMarkets]. *)
Definition startMarket (config : Configuration) (market : string) : Trace :=
  [EvLog InfoLevel ("Starting indexer for order book " +:+ market);
   EvWgAdd 1;
   EvGo (IndexOrderBook (ElasticIndexName config) market);
   EvLog InfoLevel ("Starting indexer for ticket " +:+ market);
   EvWgAdd 1;
   EvGo (IndexTicker (ElasticIndexName config) market)].

Definition waitForSignal : Trace :=
  [EvWaitSignal; EvLog InfoLevel "Got interrupt signal. Initiating Shutdown."].

(** The part of [main] that follows the initialisations: start the
    stream tasks, wait for the signal, cancel, wait for the WaitGroup. *)
Definition serve (config : Configuration) : Trace :=
  concat (map (startMarket config) (GDAXMarkets config))
    ++ waitForSignal ++ [EvCancel; EvWgWait].

Arguments serve : simpl never.

(** [main] *)
Definition main (w : World) : Trace :=
  match newConfiguration w with
  | inl e => [EvFatal (Wraps e "Error loading configuration")]
  | inr config =>
      andThen (initializeElasticClient w)
        (andThen (initializeElasticBulkProcessor w)
           (andThen (initializeIndex w config) (serve config)))
  end.

(** What each goroutine does. *)
Definition body (w : World) (r : Routine) : Trace :=
  match r with
  | IndexOrderBook indexName coin => indexOrderBook (lives w r) indexName coin
  | IndexTicker indexName coin => indexTicker (lives w r) indexName coin
  | ExitOnCancel => [EvCtxDone; EvExit 1]
  | StopClient =>
      [EvCtxDone; EvLog InfoLevel "Shutting elastic client"; EvClientStop;
       EvWgDone]
  | CloseBulkProcessor =>
      [EvCtxDone; EvLog InfoLevel "Shutting down elastic bulk processor";
       EvBulkClose]
        ++ logError
             (option_map (fun e => Wraps e "Error shutting down elastic bulk processor")
                (bulkClose w))
        ++ [EvLog InfoLevel "Successfully shut down elastic bulk processor";
            EvWgDone]
  end.

(** The state shared by the goroutines, and what each of them has still
    to do.  A goroutine whose trace is used up has returned or, for a stream
    task, is waiting for a tick that is not part of the observed run. *)
Record Proc := mkProc {
  mainG : Trace;
  goroutines : list (Routine * Trace);
  wg : Z;                                     (* the WaitGroup counter *)
  ctxDone : bool;                             (* cancel() was called *)
  interrupted : bool;                         (* os.Interrupt was delivered *)
  exited : option Z;                          (* the exit status, once exited *)
  batch : list elastic.BulkIndexRequest;      (* added, not yet committed *)
  committed : list elastic.BulkIndexRequest;  (* sent to the index store *)
  processorClosed : bool;
  clientStopped : bool
}.

Definition boot (w : World) : Proc :=
  mkProc (main w) [] 0 false false None [] [] false false.

(** An event that cannot happen yet blocks its goroutine. *)
Definition enabled (s : Proc) (e : Event) : bool :=
  match e with
  | EvCtxDone => ctxDone s
  | EvWaitSignal => interrupted s
  | EvWgWait => wg s =? 0
  | _ => true
  end.

(** The effect of an event on the shared state.  [Close] makes the bulk
    processor commit what it still holds before it returns. *)
Definition effect (w : World) (e : Event) (s : Proc) : Proc :=
  let '(mkProc m gs n c i x b d pc cs) := s in
  match e with
  | EvWgAdd k => mkProc m gs (n + k) c i x b d pc cs
  | EvWgDone => mkProc m gs (n - 1) c i x b d pc cs
  | EvGo r => mkProc m (gs ++ [(r, body w r)]) n c i x b d pc cs
  | EvCancel => mkProc m gs n true i x b d pc cs
  | EvFatal _ => mkProc m gs n c i (Some 1) b d pc cs
  | EvExit code => mkProc m gs n c i (Some code) b d pc cs
  | EvAdd r => mkProc m gs n c i x (b ++ [r]) d pc cs
  | EvBulkClose => mkProc m gs n c i x [] (d ++ b) true cs
  | EvClientStop => mkProc m gs n c i x b d pc true
  | _ => s
  end.

(** What the scheduler and the outside world can do next. *)
Inductive Choice :=
| Interrupt              (* the interrupt signal arrives *)
| RunMain                (* main performs its next event, or returns *)
| RunGo (i : nat)        (* goroutine [i] performs its next event *)
| Commit.                (* the bulk processor's workers send the batch *)

Definition setMain (m : Trace) (s : Proc) : Proc :=
  let '(mkProc _ gs n c i x b d pc cs) := s in mkProc m gs n c i x b d pc cs.

Definition setGoroutines (gs : list (Routine * Trace)) (s : Proc) : Proc :=
  let '(mkProc m _ n c i x b d pc cs) := s in mkProc m gs n c i x b d pc cs.

Definition step (w : World) (c : Choice) (s : Proc) : option Proc :=
  match exited s with
  | Some _ => None
  | None =>
      match c with
      | Interrupt =>
          let '(mkProc m gs n cx _ x b d pc cs) := s in
          Some (mkProc m gs n cx true x b d pc cs)
      | RunMain =>
          match mainG s with
          | [] =>
              let '(mkProc m gs n c i _ b d pc cs) := s in
              Some (mkProc m gs n c i (Some 0) b d pc cs)
          | e :: rest =>
              if enabled s e then Some (effect w e (setMain rest s)) else None
          end
      | RunGo i =>
          match goroutines s !! i with
          | Some (r, e :: rest) =>
              if enabled s e
              then Some (effect w e
                           (setGoroutines (<[i := (r, rest)]> (goroutines s)) s))
              else None
          | _ => None
          end
      | Commit =>
          let '(mkProc m gs n c i x b d pc cs) := s in
          Some (mkProc m gs n c i x [] (d ++ b) pc cs)
      end
  end.

Fixpoint run (w : World) (cs : list Choice) (s : Proc) : option Proc :=
  match cs with
  | [] => Some s
  | c :: cs' =>
      match step w c s with
      | Some s' => run w cs' s'
      | None => None
      end
  end.

(** The state after a schedule, from the start of the process (the start
    state itself if the schedule cannot be followed). *)
Definition after (w : World) (cs : list Choice) : Proc :=
  default (boot w) (run w cs (boot w)).

Inductive reachable (w : World) : Proc -> Prop :=
| reachable_boot : reachable w (boot w)
| reachable_step s c s' :
    reachable w s -> step w c s = Some s' -> reachable w s'.

(** ** Observations on traces *)

(** The requests handed to the bulk processor, in order. *)
Definition requests (tr : Trace) : list elastic.BulkIndexRequest :=
  omap (fun e => match e with EvAdd r => Some r | _ => None end) tr.

(** The frames written to the connection, in order. *)
Definition written (tr : Trace) : list gdax.Message :=
  omap (fun e => match e with EvWriteJSON m => Some m | _ => None end) tr.

(** The value of [message] after the observed ticks, unless one of them
    panicked. *)
Fixpoint messageAfter (indexName typ : string) (message : gdax.Message)
    (ts : list Tick) : option gdax.Message :=
  match ts with
  | [] => Some message
  | t :: ts' =>
      match (iteration indexName typ message t).2 with
      | Some message' => messageAfter indexName typ message' ts'
      | None => None
      end
  end.

(** A tick that yields a document: the read succeeds, the decoded envelope
    has a timestamp, and [Add] returns. *)
Definition valid (message : gdax.Message) (t : Tick) : bool :=
  match readJSON t, addRequest t with
  | Ret (fr, None), Ret _ =>
      negb (time.IsZero (gdax.Time_ (ws.ReadJSON message fr)))
  | _, _ => false
  end.

(** The envelope each tick decodes, as long as the ticks are valid. *)
Fixpoint envelopes (message : gdax.Message) (ts : list Tick)
    : list gdax.Message :=
  match ts with
  | [] => []
  | t :: ts' =>
      match readJSON t with
      | Ret (fr, _) =>
          let message' := ws.ReadJSON message fr in
          message' :: envelopes message' ts'
      | Panic => []
      end
  end.

Fixpoint allValid (message : gdax.Message) (ts : list Tick) : bool :=
  match ts with
  | [] => true
  | t :: ts' =>
      valid message t &&
      match readJSON t with
      | Ret (fr, _) => allValid (ws.ReadJSON message fr) ts'
      | Panic => false
      end
  end.


(** The net change of the WaitGroup counter over a trace. *)
Fixpoint balance (tr : Trace) : Z :=
  match tr with
  | [] => 0
  | EvWgAdd n :: tr' => n + balance tr'
  | EvWgDone :: tr' => balance tr' - 1
  | _ :: tr' => balance tr'
  end.

(** The events a stream task can perform. *)
Definition streamEvent (e : Event) : bool :=
  match e with
  | EvLog _ _ | EvEnter _ | EvGo ExitOnCancel | EvDial _ | EvWriteJSON _
  | EvTick | EvReadJSON | EvAdd _ | EvNewTicker _ | EvTickerStop
  | EvConnClose | EvSleep _ => true
  | EvWgAdd n => n =? 1
  | _ => false
  end.

(** ** Invariants of the process *)

(** How many events of a trace satisfy [p]. *)
Fixpoint tally (p : Event -> bool) (tr : Trace) : Z :=
  match tr with
  | [] => 0
  | e :: tr' => (if p e then 1 else 0) + tally p tr'
  end.

(** The sum of a measure over the goroutines. *)
Fixpoint total (f : Routine * Trace -> Z) (gs : list (Routine * Trace)) : Z :=
  match gs with
  | [] => 0
  | g :: gs' => f g + total f gs'
  end.

Definition isStream (r : Routine) : bool :=
  match r with
  | IndexOrderBook _ _ | IndexTicker _ _ => true
  | _ => false
  end.

Definition isDone (e : Event) : bool :=
  match e with EvWgDone => true | _ => false end.

Definition isWait (e : Event) : bool :=
  match e with EvWgWait => true | _ => false end.

Definition isFatal (e : Event) : bool :=
  match e with EvFatal _ => true | _ => false end.

Definition isCancel (e : Event) : bool :=
  match e with EvCancel => true | _ => false end.

Definition isBulkClose (e : Event) : bool :=
  match e with EvBulkClose => true | _ => false end.

Definition isClientStop (e : Event) : bool :=
  match e with EvClientStop => true | _ => false end.

(** [go] statements that start a goroutine registered in the WaitGroup. *)
Definition isSpawn (e : Event) : bool :=
  match e with
  | EvGo ExitOnCancel => false
  | EvGo _ => true
  | _ => false
  end.

Definition isBulkSpawn (e : Event) : bool :=
  match e with EvGo CloseBulkProcessor => true | _ => false end.

Definition isClientSpawn (e : Event) : bool :=
  match e with EvGo StopClient => true | _ => false end.

(** The events [main] can perform. *)
Definition mainEvent (e : Event) : bool :=
  match e with
  | EvLog _ _ | EvFatal _ | EvGo _ | EvWgAdd _ | EvWgWait | EvCancel
  | EvWaitSignal => true
  | _ => false
  end.

(** The events of the goroutine that exits the process on cancellation. *)
Definition watcherEvent (e : Event) : bool :=
  match e with
  | EvCtxDone => true
  | EvExit code => code =? 1
  | _ => false
  end.

(** The events of the two goroutines that shut the elastic side down. *)
Definition shutdownEvent (e : Event) : bool :=
  match e with
  | EvCtxDone | EvLog _ _ | EvBulkClose | EvClientStop | EvWgDone => true
  | _ => false
  end.

(** Every [Close] or [Stop] still to come is followed by a [wg.Done()]. *)
Fixpoint guarded (tr : Trace) : bool :=
  match tr with
  | [] => true
  | e :: tr' =>
      (if isBulkClose e || isClientStop e then 0 <? tally isDone tr' else true)
      && guarded tr'
  end.

Definition goroutineOk (g : Routine * Trace) : bool :=
  match g.1 with
  | IndexOrderBook _ _ | IndexTicker _ _ => forallb streamEvent g.2
  | ExitOnCancel => forallb watcherEvent g.2
  | StopClient | CloseBulkProcessor =>
      forallb shutdownEvent g.2 && guarded g.2
  end.

(** After [cancel()], [main] has only [wg.Wait()] left. *)
Fixpoint cancelShape (tr : Trace) : bool :=
  match tr with
  | [] => true
  | e :: tr' => if isCancel e then forallb isWait tr' else cancelShape tr'
  end.

(** [main] ends with [wg.Wait()] or with a [Fatal]. *)
Fixpoint endsOk (tr : Trace) : bool :=
  match tr with
  | [] => true
  | e :: tr' =>
      match tr' with
      | [] => isWait e || isFatal e
      | _ => endsOk tr'
      end
  end.

(** What a goroutine still owes to the WaitGroup: its pending [wg.Done()]
    calls, and one registration that a stream task never gives back. *)
Definition owed (g : Routine * Trace) : Z :=
  tally isDone g.2 + (if isStream g.1 then 1 else 0).

Definition closing (g : Routine * Trace) : Z := tally isBulkClose g.2.

Definition stopping (g : Routine * Trace) : Z := tally isClientStop g.2.

Definition streaming (g : Routine * Trace) : Z :=
  if isStream g.1 then 1 else 0.

Record Inv (s : Proc) : Prop := mkInv {
  inv_main : forallb mainEvent (mainG s) = true;
  inv_shape : cancelShape (mainG s) = true;
  inv_ends : endsOk (mainG s) = true;
  inv_goroutines : forallb goroutineOk (goroutines s) = true;
  inv_wg :
    total owed (goroutines s)
    <= wg s + balance (mainG s) - tally isSpawn (mainG s);
  inv_ctx : ctxDone s = true -> forallb isWait (mainG s) = true;
  inv_bulk :
    1 <= tally isBulkSpawn (mainG s) + total closing (goroutines s)
         + (if processorClosed s then 1 else 0)
    \/ (ctxDone s = false /\ tally isCancel (mainG s) = 0);
  inv_client :
    1 <= tally isClientSpawn (mainG s) + total stopping (goroutines s)
         + (if clientStopped s then 1 else 0)
    \/ (ctxDone s = false /\ tally isCancel (mainG s) = 0);
  inv_batch : total streaming (goroutines s) = 0 -> batch s = [];
  inv_return : mainG s = [] -> exited s = None -> wg s = 0;
  inv_exit : exited s = Some 0 -> wg s = 0
}.

(** ** Proof steps *)

(** Steps shared by the cases of the two preservation lemmas. *)
Ltac ctx_field I :=
  let H := fresh in
  intros H; specialize (I H); simpl in I;
  first [ discriminate I | by apply andb_true_iff in I as [_ ?] | done ].

Ltac either_field I :=
  let H := fresh in
  let H' := fresh in
  destruct I as [H|[H H']];
  [ left; simpl in *; lia | right; split; [done | simpl in *; lia] ].

(** Case analysis on the routine a goroutine runs and on its next event,
    keeping the events the routine can perform. *)
Ltac by_event r e He :=
  destruct r; simpl in He; destruct e; try discriminate He;
  try match type of He with
      | streamEvent (EvGo ?r') = true => destruct r'; try discriminate He
      end;
  simpl in He;
  try match type of He with
      | (?k =? 1) = true => apply Z.eqb_eq in He; subst k
      end;
  cbn [effect setGoroutines mainG goroutines wg ctxDone exited batch
         processorClosed clientStopped].

(** ** Sample inputs *)

Module Sample.

Definition noon : time.Time := time.mkTime 63650000000 0.

(** A ticker frame with a timestamp. *)
Definition tickerFrame : gdax.Frame :=
  gdax.mkFrame (Some "ticker") (Some "BTC-USD") (Some 5) (Some noon)
    (Some "100.0") (Some "buy") None None None (Some "99.9") (Some "100.1")
    None.

(** A later frame that updates the price only. *)
Definition priceFrame : gdax.Frame :=
  gdax.mkFrame None None None (Some noon) (Some "101.0") None None None None
    None None None.


Definition good (fr : gdax.Frame) : Tick := mkTick (Ret (fr, None)) (Ret tt).

Definition failing (e : string) : Tick :=
  mkTick (Ret (gdax.noFrame, Some e)) (Ret tt).

Definition panicking : Tick := mkTick Panic (Ret tt).

(** An incarnation that connects, subscribes and reads the given ticks. *)
Definition calm (ts : list Tick) : Life := mkLife (Ret None) (Ret None) ts.

(** An incarnation whose first read panics. *)
Definition crash : Life := calm [panicking].


Definition config (markets : list string) : Configuration :=
  mkConfiguration 5 10 5 true ["http://localhost:9200"] "elastic" "changeme"
    false "gdax-market" markets "info".

(** A run with no market configured. *)
Definition quiet : World :=
  mkWorld (inr (config [])) None None (inr true) None None None
    (fun _ => []).

(** A run with one market, whose two stream tasks connect, subscribe and
    receive one frame. *)
Definition oneMarket : World :=
  mkWorld (inr (config ["BTC-USD"])) None None (inr true) None None None
    (fun _ => [calm [good tickerFrame]]).

(** [main] initialises everything and reaches [waitForSignal]; the signal
    arrives; [main] cancels; both shutdown goroutines run to their end. *)
Definition shutdown : list Choice :=
  replicate 8 RunMain ++ [Interrupt] ++ replicate 3 RunMain
    ++ replicate 4 (RunGo 0) ++ replicate 5 (RunGo 1).

(** After [shutdown], [wg.Wait()] returns and [main] returns. *)
Definition cleanExit : list Choice := shutdown ++ [RunMain; RunMain].

(** [main] starts the tasks of the one market; the ticker task (goroutine
    3) subscribes, starts its watcher (goroutine 4) and hands one request
    to the bulk processor; the signal arrives; [main] cancels; the watcher
    runs. *)
Definition killed : list Choice :=
  replicate 14 RunMain ++ replicate 8 (RunGo 3) ++ [Interrupt]
    ++ replicate 3 RunMain ++ replicate 2 (RunGo 4).

End Sample.

(** ** Further observations on the stream tasks *)

(** The functions entered, the sleeps and the goroutines started, in
    order. *)
Definition entered (tr : Trace) : list Routine :=
  omap (fun e => match e with EvEnter r => Some r | _ => None end) tr.

Definition slept (tr : Trace) : list Z :=
  omap (fun e => match e with EvSleep d => Some d | _ => None end) tr.

Definition spawned (tr : Trace) : list Routine :=
  omap (fun e => match e with EvGo r => Some r | _ => None end) tr.

Definition isDial (e : Event) : bool :=
  match e with EvDial _ => true | _ => false end.

Definition isNewTicker (e : Event) : bool :=
  match e with EvNewTicker _ => true | _ => false end.

Definition isTickerStop (e : Event) : bool :=
  match e with EvTickerStop => true | _ => false end.

Definition isConnClose (e : Event) : bool :=
  match e with EvConnClose => true | _ => false end.

(** The events of the read loop itself. *)
Definition loopEvent (e : Event) : bool :=
  match e with
  | EvTick | EvReadJSON | EvLog _ _ | EvAdd _ => true
  | _ => false
  end.

(** Whether an incarnation ends in a panic; this depends on the answers of
    the outside world only, not on the arguments of the task (lemma
    [stream_crashes]). *)
Definition crashes (l : Life) : bool := recovered (stream "" "" "" "" l).2.

(** How many restarts a sequence of lives leads to: every life that
    crashes is followed by a restart, up to the first one that does not. *)
Fixpoint restarts (lives : list Life) : nat :=
  match lives with
  | [] => 0
  | l :: lives' => if crashes l then S (restarts lives') else 0
  end.

(** ** Further observations on [main] and on the process *)

Definition isStreamSpawn (e : Event) : bool :=
  match e with EvGo r => isStream r | _ => false end.

Definition isSignal (e : Event) : bool :=
  match e with EvWaitSignal => true | _ => false end.

Definition isCtxDone (e : Event) : bool :=
  match e with EvCtxDone => true | _ => false end.

Definition isExit (e : Event) : bool :=
  match e with EvExit _ => true | _ => false end.

(** Every [go] statement comes right after a [wg.Add(1)], and every
    [wg.Add] is a [wg.Add(1)] followed at once by a [go] statement.
    [pending] tells that the previous event was such a [wg.Add(1)]. *)
Fixpoint registeredFrom (pending : bool) (tr : Trace) : bool :=
  match tr with
  | [] => negb pending
  | e :: tr' =>
      match e with
      | EvWgAdd n => negb pending && (n =? 1) && registeredFrom true tr'
      | EvGo _ => pending && registeredFrom false tr'
      | _ => negb pending && registeredFrom false tr'
      end
  end.

Definition registered (tr : Trace) : bool := registeredFrom false tr.

(** All the initialisations of [main] succeed: the configuration loads,
    the client and the bulk processor are created, and the index exists or
    is created from the template. *)
Definition startsUp (w : World) : bool :=
  match newConfiguration w, newClient w, bulkDo w with
  | inr _, None, None =>
      match indexExists w with
      | inl _ => false
      | inr true => true
      | inr false =>
          match readTemplate w, createIndex w with
          | None, None => true
          | _, _ => false
          end
      end
  | _, _, _ => false
  end.

(** The two stream tasks [main] starts for a market. *)
Definition marketTasks (indexName market : string) : list Routine :=
  [IndexOrderBook indexName market; IndexTicker indexName market].

(** At every point of the trace, the registrations still to be made do not
    exceed the goroutines still to be started. *)
Fixpoint covered (tr : Trace) : bool :=
  match tr with
  | [] => true
  | e :: tr' =>
      (balance (e :: tr') <=? tally isSpawn (e :: tr')) && covered tr'
  end.

(** [cancel()] does not come before the signal has been awaited. *)
Fixpoint signalFirst (tr : Trace) : bool :=
  match tr with
  | [] => true
  | e :: tr' =>
      if isSignal e then true
      else if isCancel e then false
      else signalFirst tr'
  end.

(** No [Close], [Stop] or [os.Exit] before [<-ctx.Done()] has returned. *)
Fixpoint gated (tr : Trace) : bool :=
  match tr with
  | [] => true
  | e :: tr' =>
      if isCtxDone e then true
      else negb (isBulkClose e || isClientStop e || isExit e) && gated tr'
  end.

Record Inv2 (w : World) (s : Proc) : Prop := mkInv2 {
  inv_covered : covered (mainG s) = true;
  inv_signal : interrupted s = true \/ signalFirst (mainG s) = true;
  inv_interrupted : ctxDone s = true -> interrupted s = true;
  inv_gated :
    ctxDone s = true
    \/ (forallb (fun g => gated g.2) (goroutines s) = true
        /\ processorClosed s = false /\ clientStopped s = false);
  inv_exited :
    exited s = None \/ ctxDone s = true \/ 0 < tally isFatal (main w);
  inv_running :
    exited s = None ->
    ctxDone s = true \/ 0 < tally isCancel (mainG s)
    \/ 0 < tally isFatal (mainG s);
  inv_suffix : exists pre, main w = pre ++ mainG s;
  inv_streams :
    tally isStreamSpawn (mainG s) + total streaming (goroutines s)
    = tally isStreamSpawn (main w);
  inv_clean : exited s = Some 0 -> tally isStreamSpawn (main w) = 0;
  inv_cancelled : ctxDone s = true -> 0 < tally isCancel (main w);
  inv_status : forall code, exited s = Some code -> code = 0 \/ code = 1;
  inv_zero : exited s = Some 0 -> ctxDone s = true
}.

(** The eight ways through the initialisations of [main]. *)
Ltac main_cases w :=
  unfold main, andThen, initializeElasticClient,
    initializeElasticBulkProcessor, initializeIndex;
  destruct (newConfiguration w) as [?|config];
  [| destruct (newClient w);
     [| destruct (bulkDo w);
        [| destruct (indexExists w) as [?|[|]];
           [| | destruct (readTemplate w);
                [| destruct (createIndex w)]]]]];
  cbn [fst snd].

Module More.

(** A run in which the elastic cluster cannot be reached. *)
Definition noElastic : World :=
  mkWorld (inr (Sample.config ["BTC-USD"; "ETH-USD"]))
    (Some "no Elasticsearch node available") None (inr true) None None None
    (fun _ => [Sample.calm []]).

(** A run with two markets in which the index has to be created. *)
Definition twoMarkets : World :=
  mkWorld (inr (Sample.config ["BTC-USD"; "ETH-USD"])) None None (inr false)
    None None None (fun _ => [Sample.calm []]).

End More.

(** ** Configuration and logging *)

Module logrus.

(** [logrus.Level], most severe first. *)
Inductive Level :=
| PanicLevel | FatalLevel | ErrorLevel | WarnLevel | InfoLevel | DebugLevel.

(** [logrus.Entry], without its logger. *)
Record Entry := mkEntry {
  Data : list (string * string);
  Time : time.Time;
  Level_ : Level;
  Message : string
}.

End logrus.

Module strings.

(** The white space of the ASCII range: tab, line feed, vertical tab, form
    feed, carriage return and space. *)
Definition isSpace (c : Ascii.ascii) : bool :=
  let n := Ascii.N_of_ascii c in
  ((9 <=? n)%N && (n <=? 13)%N) || (n =? 32)%N.

Fixpoint trimLeft (s : string) : string :=
  match s with
  | EmptyString => EmptyString
  | String c s' => if isSpace c then trimLeft s' else s
  end.

Fixpoint trimRight (s : string) : string :=
  match s with
  | EmptyString => EmptyString
  | String c s' =>
      match trimRight s' with
      | EmptyString => if isSpace c then EmptyString else String c EmptyString
      | t => String c t
      end
  end.

(** Go's [strings.TrimSpace], on strings of ASCII bytes: leading and
    trailing white space removed.  (Go also removes the Unicode white
    space above U+007F; on a string of ASCII bytes there is none.) *)
Definition TrimSpace (s : string) : string := trimRight (trimLeft s).

Fixpoint allSpace (s : string) : bool :=
  match s with
  | EmptyString => true
  | String c s' => isSpace c && allSpace s'
  end.

Fixpoint isASCII (s : string) : bool :=
  match s with
  | EmptyString => true
  | String c s' => (Ascii.N_of_ascii c <? 128)%N && isASCII s'
  end.

Definition first (s : string) : option Ascii.ascii :=
  match s with
  | EmptyString => None
  | String c _ => Some c
  end.

Fixpoint final (s : string) : option Ascii.ascii :=
  match s with
  | EmptyString => None
  | String c s' =>
      match final s' with
      | None => Some c
      | Some d => Some d
      end
  end.

End strings.

Section Configuration.

(** The file system and the YAML decoder: [ioutil.ReadFile] and
    [yaml.Unmarshal] into a zero [Configuration], each returning an error
    (left) or its result (right). *)
Variable ReadFile : string -> string + string.
Variable Unmarshal : string -> string + Configuration.

Definition withLogLevel (level : string) (config : Configuration)
    : Configuration :=
  mkConfiguration (ElasticClientBatchSize config) (ElasticClientWorkers config)
    (ElasticClientFlushInterval config) (ElasticClientStatsEnabled config)
    (Elastic config) (ElasticUser config) (ElasticPassword config)
    (ElasticSniff config) (ElasticIndexName config) (GDAXMarkets config)
    level.

(** [NewConfiguration] *)
Definition NewConfiguration (configLocation : string)
    : string + Configuration :=
  match ReadFile configLocation with
  | inl err =>
      inl (Wraps err ("Unable read configuration file " +:+ configLocation))
  | inr yml =>
      match Unmarshal yml with
      | inl err =>
          inl (Wraps err
                 ("Error parsing configuration file " +:+ configLocation))
      | inr config =>
          if String.eqb (LogLevel config) ""
          then inr (withLogLevel "info" config)
          else inr config
      end
  end.

End Configuration.

(** The [switch config.LogLevel] of [main]: the level the logger is set
    to. *)
Definition logLevel (config : Configuration) : logrus.Level :=
  if String.eqb (LogLevel config) "debug" then logrus.DebugLevel
  else logrus.InfoLevel.

Section LogFormatter.

(** [logFormatter.parentFormatter.Format]: bytes (right) or an error. *)
Variable parentFormat : logrus.Entry -> string + string.

(** [LogFormatter.Format]: the entry as the call leaves it, and what the
    call returns. *)
Definition Format (entry : logrus.Entry)
    : logrus.Entry * (string + string) :=
  let entry :=
    logrus.mkEntry (logrus.Data entry) (logrus.Time entry)
      (logrus.Level_ entry) (strings.TrimSpace (logrus.Message entry)) in
  (entry, parentFormat entry).

End LogFormatter.

Module MoreConfig.

(** A document that sets no log level, and one that shouts it. *)
Definition silent : Configuration :=
  mkConfiguration 5 10 5 true ["http://localhost:9200"] "" "" false
    "gdax-market" ["BTC-USD"] "".

Definition shouting : Configuration :=
  mkConfiguration 5 10 5 true ["http://localhost:9200"] "" "" false
    "gdax-market" ["BTC-USD"] "DEBUG".

Definition readAny (location : string) : string + string :=
  inr "elastic-index: gdax-market".

Definition parseAs (config : Configuration) (yml : string)
    : string + Configuration :=
  inr config.

(** A log entry whose message is wrapped in white space. *)
Definition padded : logrus.Entry :=
  logrus.mkEntry [("component", "http")] Sample.noon logrus.ErrorLevel
    (String (Ascii.ascii_of_nat 9)
       (" read tcp: i/o  timeout"
          +:+ String (Ascii.ascii_of_nat 13)
                (String (Ascii.ascii_of_nat 10) EmptyString))).

Definition plainText (entry : logrus.Entry) : string + string :=
  inr (logrus.Message entry).

End MoreConfig.
(** ** The read loop *)


Lemma readLoop_cons (indexName typ : string) (message : gdax.Message)
    (t : Tick) (ts : list Tick) :
  readLoop indexName typ message (t :: ts)
  = match iteration indexName typ message t with
    | (evs, Some message') =>
        ((evs ++ (readLoop indexName typ message' ts).1),
         (readLoop indexName typ message' ts).2)
    | (evs, None) => (evs, Panicked)
    end.
Proof.
  simpl. destruct (iteration indexName typ message t) as [evs [m'|]]; [|done].
  by destruct (readLoop indexName typ m' ts).
Qed.

Lemma iteration_written (indexName typ : string) (message : gdax.Message)
    (t : Tick) :
  written (iteration indexName typ message t).1 = [].
Proof.
  unfold iteration.
  destruct (readJSON t) as [[fr [e|]]|]; try done.
  destruct (time.IsZero _); [done|].
  by destruct (addRequest t).
Qed.

Lemma readLoop_written (indexName typ : string) (ts : list Tick) :
  forall message, written (readLoop indexName typ message ts).1 = [].
Proof.
  induction ts as [|t ts IH]; intros message; [done|].
  rewrite readLoop_cons.
  pose proof (iteration_written indexName typ message t) as Hw.
  destruct (iteration indexName typ message t) as [evs [m'|]]; simpl in *.
  - unfold written in *. by rewrite omap_app, Hw, IH.
  - done.
Qed.

Lemma readLoop_valid (indexName typ : string) (ts : list Tick) :
  forall message,
    allValid message ts = true ->
    requests (readLoop indexName typ message ts).1
    = map (elastic.mkRequest indexName typ) (envelopes message ts)
    /\ recovered (readLoop indexName typ message ts).2 = false
    /\ length (envelopes message ts) = length ts.
Proof.
  induction ts as [|t ts IH]; intros message Hv; [done|].
  rewrite readLoop_cons. simpl in Hv |- *.
  apply andb_true_iff in Hv as [Ht Hts].
  unfold valid in Ht. unfold iteration.
  destruct (readJSON t) as [[fr [e|]]|]; try done.
  destruct (addRequest t) as [[]|]; try done.
  apply negb_true_iff in Ht. rewrite Ht. simpl.
  destruct (IH _ Hts) as (Hr & Hx & Hl).
  repeat split; [|done|by rewrite Hl].
  unfold requests in *. simpl. by rewrite Hr.
Qed.

Lemma readLoop_step (indexName typ : string) (message message' : gdax.Message)
    (t : Tick) (ts : list Tick) (evs : Trace) :
  iteration indexName typ message t = (evs, Some message') ->
  readLoop indexName typ message (t :: ts)
  = (evs ++ (readLoop indexName typ message' ts).1,
     (readLoop indexName typ message' ts).2).
Proof. intros H. by rewrite readLoop_cons, H. Qed.

(** How a frame leads to an envelope without a timestamp: its [time] key is
    absent and [message] holds none yet, or the key carries the zero time. *)
Lemma envelope_without_timestamp (message : gdax.Message) (fr : gdax.Frame) :
  match gdax.time_ fr with
  | None => time.IsZero (gdax.Time_ message) = true
  | Some t => time.IsZero t = true
  end ->
  time.IsZero (gdax.Time_ (ws.ReadJSON message fr)) = true.
Proof. simpl. by destruct (gdax.time_ fr). Qed.



(** C8: a turn of the read loop whose read returns an error logs that
    error and nothing else happens in the turn: no request is added, there
    is no sleep and no new dial, and the loop goes on with the next tick. *)
Theorem read_error_logged_and_skipped (indexName typ : string)
    (message : gdax.Message) (t : Tick) (ts : list Tick) (fr : gdax.Frame)
    (e : string) :
  readJSON t = Ret (fr, Some e) ->
  iteration indexName typ message t
  = ([EvTick; EvReadJSON; EvLog ErrorLevel e], Some (ws.ReadJSON message fr))
  /\ requests (iteration indexName typ message t).1 = []
  /\ (forall d, EvSleep d ∉ (iteration indexName typ message t).1)
  /\ (forall url, EvDial url ∉ (iteration indexName typ message t).1)
  /\ readLoop indexName typ message (t :: ts)
     = ([EvTick; EvReadJSON; EvLog ErrorLevel e]
          ++ (readLoop indexName typ (ws.ReadJSON message fr) ts).1,
        (readLoop indexName typ (ws.ReadJSON message fr) ts).2).
Proof.
  intros Hr.
  assert (iteration indexName typ message t
          = ([EvTick; EvReadJSON; EvLog ErrorLevel e],
             Some (ws.ReadJSON message fr))) as Hi.
  { unfold iteration. by rewrite Hr. }
  split; [done|]. split; [by rewrite Hi|].
  split; [|split]; [| |by apply readLoop_step].
  - intros d Hd. rewrite Hi in Hd. simpl in Hd.
    repeat (apply elem_of_cons in Hd as [Hd|Hd]; [done|]).
    by apply elem_of_nil in Hd.
  - intros u Hd. rewrite Hi in Hd. simpl in Hd.
    repeat (apply elem_of_cons in Hd as [Hd|Hd]; [done|]).
    by apply elem_of_nil in Hd.
Qed.

Lemma read_error_logged_and_skipped_witness :
  requests
    (iteration "gdax-market" "snap-shot" gdax.empty
       (Sample.failing "unexpected EOF")).1
  = [].
Proof.
  refine (proj1 (proj2 (read_error_logged_and_skipped "gdax-market" "snap-shot"
    gdax.empty (Sample.failing "unexpected EOF") [] gdax.noFrame
    "unexpected EOF" _)));
    reflexivity.
Defined.

(** ** One incarnation of a stream task *)

Lemma written_app (tr tr' : Trace) :
  written (tr ++ tr') = written tr ++ written tr'.
Proof. apply omap_app. Qed.

Lemma requests_app (tr tr' : Trace) :
  requests (tr ++ tr') = requests tr ++ requests tr'.
Proof. apply omap_app. Qed.

Lemma written_logError (err : option string) : written (logError err) = [].
Proof. by destruct err. Qed.

Lemma requests_logError (err : option string) : requests (logError err) = [].
Proof. by destruct err. Qed.

(** Once [Dial] and [WriteJSON] have returned, the task is in its read
    loop, whatever they returned. *)
Lemma stream_enters_loop (channel typ indexName coin : string) (l : Life)
    (d wj : option string) :
  dial l = Ret d -> writeJSON l = Ret wj ->
  exists unwind,
    stream channel typ indexName coin l
    = (EvDial feedURL :: logError d
         ++ EvWriteJSON (subscribeMessage channel coin) :: logError wj
         ++ [EvGo ExitOnCancel; EvNewTicker tickerTime]
         ++ (readLoop indexName typ gdax.empty (ticks l)).1 ++ unwind,
       (readLoop indexName typ gdax.empty (ticks l)).2)
    /\ (unwind = [] \/ unwind = [EvTickerStop; EvConnClose])
    /\ requests unwind = [] /\ written unwind = [].
Proof.
  intros Hd Hw. unfold stream. rewrite Hd, Hw.
  destruct (readLoop indexName typ gdax.empty (ticks l)) as [tr [m|]]; simpl.
  - exists []. rewrite app_nil_r.
    repeat split; [|by left].
    by rewrite <- !app_assoc, <- app_comm_cons, <- !app_assoc.
  - exists [EvTickerStop; EvConnClose].
    repeat split; [|by right].
    by rewrite <- !app_assoc, <- app_comm_cons, <- !app_assoc.
Qed.





Lemma stream_requests (channel typ indexName coin : string) (l : Life)
    (d wj : option string) :
  dial l = Ret d -> writeJSON l = Ret wj ->
  requests (stream channel typ indexName coin l).1
  = requests (readLoop indexName typ gdax.empty (ticks l)).1
  /\ (stream channel typ indexName coin l).2
     = (readLoop indexName typ gdax.empty (ticks l)).2.
Proof.
  intros Hd Hw.
  destruct (stream_enters_loop channel typ indexName coin l d wj Hd Hw)
    as (unwind & Hs & _ & Hu & _).
  rewrite Hs. cbn [fst snd]. split; [|done].
  change (requests (EvDial feedURL :: ?t)) with (requests t).
  rewrite requests_app, requests_logError.
  change (requests (EvWriteJSON ?m :: ?t)) with (requests t).
  by rewrite !requests_app, requests_logError, Hu, app_nil_r.
Qed.

(** C3: a stream task that connects and then reads N valid ticks (the read
    succeeds, the envelope has a timestamp, [Add] returns) hands exactly N
    requests to the bulk processor, one per envelope and in the order read,
    each for the index name the task was given and with document type
    "ticker" ([indexTicker]) or "snap-shot" ([indexOrderBook]). *)
Theorem valid_envelopes_enqueued (indexName coin : string)
    (d wj : option string) (ts : list Tick) (lives : list Life) :
  allValid gdax.empty ts = true ->
  requests (indexTicker (mkLife (Ret d) (Ret wj) ts :: lives) indexName coin)
  = map (elastic.mkRequest indexName "ticker") (envelopes gdax.empty ts)
  /\ requests
       (indexOrderBook (mkLife (Ret d) (Ret wj) ts :: lives) indexName coin)
     = map (elastic.mkRequest indexName "snap-shot") (envelopes gdax.empty ts)
  /\ length (envelopes gdax.empty ts) = length ts.
Proof.
  intros Hv.
  pose (l := mkLife (Ret d) (Ret wj) ts).
  split; [|split].
  - destruct (readLoop_valid indexName "ticker" ts _ Hv) as (Hr & Hx & _).
    destruct (stream_requests "ticker" "ticker" indexName coin l d wj
                eq_refl eq_refl) as (Hs & Hq).
    cbn [indexTicker]. fold l.
    destruct (stream "ticker" "ticker" indexName coin l) as [tr x].
    cbn [fst snd ticks l] in Hs, Hq. rewrite Hq, Hx. unfold restartTicker.
    change (requests (EvEnter ?r :: ?t)) with (requests t).
    by rewrite app_nil_r, Hs.
  - destruct (readLoop_valid indexName "snap-shot" ts _ Hv) as (Hr & Hx & _).
    destruct (stream_requests "level2" "snap-shot" indexName coin l d wj
                eq_refl eq_refl) as (Hs & Hq).
    cbn [indexOrderBook]. fold l.
    destruct (stream "level2" "snap-shot" indexName coin l) as [tr x].
    cbn [fst snd ticks l] in Hs, Hq. rewrite Hq, Hx. unfold restartOrderBook.
    change (requests (EvEnter ?r :: ?t)) with (requests t).
    by rewrite app_nil_r, Hs.
  - by destruct (readLoop_valid indexName "ticker" ts _ Hv) as (_ & _ & Hl).
Qed.

Lemma valid_envelopes_enqueued_witness :
  length
    (envelopes gdax.empty
       [Sample.good Sample.tickerFrame; Sample.good Sample.priceFrame])
  = 2%nat.
Proof.
  refine (proj2 (proj2 (valid_envelopes_enqueued "gdax-market" "BTC-USD" None
    None [Sample.good Sample.tickerFrame; Sample.good Sample.priceFrame] []
    _))).
  reflexivity.
Defined.

(** ** The message survives from one tick to the next *)




(** The loop over [ts ++ ts'] runs the second part on the message the first
    part left. *)
Lemma readLoop_app (indexName typ : string) (ts ts' : list Tick) :
  forall message message',
    messageAfter indexName typ message ts = Some message' ->
    readLoop indexName typ message (ts ++ ts')
    = ((readLoop indexName typ message ts).1
         ++ (readLoop indexName typ message' ts').1,
       (readLoop indexName typ message' ts').2).
Proof.
  induction ts as [|t ts IH]; intros message message' Ha; simpl in Ha.
  - injection Ha as ->. simpl. by destruct (readLoop _ _ _ ts').
  - change ((t :: ts) ++ ts') with (t :: (ts ++ ts')).
    rewrite !readLoop_cons.
    destruct (iteration indexName typ message t) as [evs [m1|]]; [|done].
    simpl in Ha. rewrite (IH _ _ Ha). simpl. by rewrite app_assoc.
Qed.



(** ** Supervision *)

Lemma indexTicker_restart (l : Life) (lives : list Life)
    (indexName coin : string) :
  (stream "ticker" "ticker" indexName coin l).2 = Panicked ->
  indexTicker (l :: lives) indexName coin
  = EvEnter (IndexTicker indexName coin)
      :: (stream "ticker" "ticker" indexName coin l).1
      ++ [EvLog ErrorLevel (restartLog "Ticker"); EvSleep (10 * time.Second);
          EvWgAdd 1]
      ++ indexTicker lives indexName coin.
Proof.
  intros Hx. cbn [indexTicker].
  destruct (stream "ticker" "ticker" indexName coin l) as [tr x].
  simpl in Hx. by subst x.
Qed.

Lemma indexOrderBook_restart (l : Life) (lives : list Life)
    (indexName coin : string) :
  (stream "level2" "snap-shot" indexName coin l).2 = Panicked ->
  indexOrderBook (l :: lives) indexName coin
  = EvEnter (IndexOrderBook indexName coin)
      :: (stream "level2" "snap-shot" indexName coin l).1
      ++ [EvLog ErrorLevel (restartLog "Order book");
          EvSleep (10 * time.Second); EvWgAdd 1]
      ++ indexOrderBook lives coin indexName.
Proof.
  intros Hx. cbn [indexOrderBook].
  destruct (stream "level2" "snap-shot" indexName coin l) as [tr x].
  simpl in Hx. by subst x.
Qed.

(** C1, at the input where it fails: an order-book task for index
    "gdax-market" and market "BTC-USD" whose first read panics.  After the
    10 second sleep and the new registration, [indexOrderBook] is entered
    with "BTC-USD" as its index name and "gdax-market" as its coin, and it
    subscribes to the product "gdax-market". *)
Theorem order_book_restart_swaps_arguments :
  indexOrderBook [Sample.crash; Sample.calm []] "gdax-market" "BTC-USD"
  = [EvEnter (IndexOrderBook "gdax-market" "BTC-USD");
     EvDial feedURL;
     EvWriteJSON (subscribeMessage "level2" "BTC-USD");
     EvGo ExitOnCancel; EvNewTicker 500;
     EvTick; EvReadJSON;
     EvTickerStop; EvConnClose;
     EvLog ErrorLevel
       "Order book stream failed, waiting 10 seconds and restatrting";
     EvSleep 10000; EvWgAdd 1;
     EvEnter (IndexOrderBook "BTC-USD" "gdax-market");
     EvDial feedURL;
     EvWriteJSON (subscribeMessage "level2" "gdax-market");
     EvGo ExitOnCancel; EvNewTicker 500].
Proof. reflexivity. Qed.

(** The same scenario on the ticker side restarts the same subscription. *)
Lemma ticker_restart_keeps_arguments :
  indexTicker [Sample.crash; Sample.calm []] "gdax-market" "BTC-USD"
  = [EvEnter (IndexTicker "gdax-market" "BTC-USD");
     EvDial feedURL;
     EvWriteJSON (subscribeMessage "ticker" "BTC-USD");
     EvGo ExitOnCancel; EvNewTicker 500;
     EvTick; EvReadJSON;
     EvTickerStop; EvConnClose;
     EvLog ErrorLevel
       "Ticker stream failed, waiting 10 seconds and restatrting";
     EvSleep 10000; EvWgAdd 1;
     EvEnter (IndexTicker "gdax-market" "BTC-USD");
     EvDial feedURL;
     EvWriteJSON (subscribeMessage "ticker" "BTC-USD");
     EvGo ExitOnCancel; EvNewTicker 500].
Proof. reflexivity. Qed.

(** ** The events of a stream task *)

Lemma forallb_app' {A : Type} (p : A -> bool) (l l' : list A) :
  forallb p l = true -> forallb p l' = true -> forallb p (l ++ l') = true.
Proof. intros H H'. by rewrite forallb_app, H, H'. Qed.

Lemma logError_streamEvents (err : option string) :
  forallb streamEvent (logError err) = true.
Proof. by destruct err. Qed.

Lemma iteration_streamEvents (indexName typ : string) (message : gdax.Message)
    (t : Tick) :
  forallb streamEvent (iteration indexName typ message t).1 = true.
Proof.
  unfold iteration.
  destruct (readJSON t) as [[fr [e|]]|]; try done.
  destruct (time.IsZero _); [done|].
  by destruct (addRequest t).
Qed.

Lemma readLoop_streamEvents (indexName typ : string) (ts : list Tick) :
  forall message,
    forallb streamEvent (readLoop indexName typ message ts).1 = true.
Proof.
  induction ts as [|t ts IH]; intros message; [done|].
  rewrite readLoop_cons.
  pose proof (iteration_streamEvents indexName typ message t) as Hi.
  destruct (iteration indexName typ message t) as [evs [m'|]]; simpl in *.
  - by apply forallb_app'.
  - done.
Qed.

Lemma stream_streamEvents (channel typ indexName coin : string) (l : Life) :
  forallb streamEvent (stream channel typ indexName coin l).1 = true.
Proof.
  unfold stream.
  destruct (dial l) as [d|]; [|done].
  destruct (writeJSON l) as [wj|].
  - pose proof (readLoop_streamEvents indexName typ (ticks l) gdax.empty) as Hl.
    destruct (readLoop indexName typ gdax.empty (ticks l)) as [tr [m|]];
      simpl in *.
    + repeat (apply forallb_app'; try done); auto using logError_streamEvents.
    + repeat (apply forallb_app'; try done); auto using logError_streamEvents.
  - simpl. apply forallb_app'; [apply logError_streamEvents|done].
Qed.

Lemma indexTicker_streamEvents (lives : list Life) :
  forall indexName coin,
    forallb streamEvent (indexTicker lives indexName coin) = true.
Proof.
  induction lives as [|l lives IH]; intros indexName coin; [done|].
  cbn [indexTicker].
  pose proof (stream_streamEvents "ticker" "ticker" indexName coin l) as Hs.
  destruct (stream "ticker" "ticker" indexName coin l) as [tr x].
  simpl in *. apply forallb_app'; [done|].
  unfold restartTicker. destruct (recovered x); [|done].
  simpl. apply IH.
Qed.

Lemma indexOrderBook_streamEvents (lives : list Life) :
  forall indexName coin,
    forallb streamEvent (indexOrderBook lives indexName coin) = true.
Proof.
  induction lives as [|l lives IH]; intros indexName coin; [done|].
  cbn [indexOrderBook].
  pose proof (stream_streamEvents "level2" "snap-shot" indexName coin l) as Hs.
  destruct (stream "level2" "snap-shot" indexName coin l) as [tr x].
  simpl in *. apply forallb_app'; [done|].
  unfold restartOrderBook. destruct (recovered x); [|done].
  simpl. apply IH.
Qed.

Lemma streamEvents_no_done (tr : Trace) :
  forallb streamEvent tr = true -> EvWgDone ∉ tr.
Proof.
  intros H Hin. apply list_elem_of_In in Hin.
  rewrite forallb_forall in H. by apply H in Hin.
Qed.

(** C4, where it fails: in no run does either stream task perform
    [wg.Done()].  In particular, for a ticker task whose first read panics,
    the registration made by [restartTicker] comes on top of the one the
    panicked incarnation was started with: over the run of the goroutine
    the counter has only gone up. *)
Theorem stream_task_never_done :
  (forall lives indexName coin,
     (EvWgDone ∉ indexTicker lives indexName coin)
     /\ (EvWgDone ∉ indexOrderBook lives indexName coin))
  /\ balance (indexTicker [Sample.crash; Sample.calm []] "gdax-market" "BTC-USD")
     = 1
  /\ balance
       (indexOrderBook [Sample.crash; Sample.calm []] "gdax-market" "BTC-USD")
     = 1.
Proof.
  split; [|done].
  intros lives indexName coin. split; apply streamEvents_no_done.
  - apply indexTicker_streamEvents.
  - apply indexOrderBook_streamEvents.
Qed.

(** ** Counting events and goroutines *)

Lemma tally_app (p : Event -> bool) (tr tr' : Trace) :
  tally p (tr ++ tr') = tally p tr + tally p tr'.
Proof. induction tr as [|e tr IH]; simpl; lia. Qed.

Lemma tally_nonneg (p : Event -> bool) (tr : Trace) : 0 <= tally p tr.
Proof. induction tr as [|e tr IH]; simpl; [lia|]. destruct (p e); lia. Qed.

Lemma tally_none (p q : Event -> bool) (tr : Trace) :
  (forall e, q e = true -> p e = false) ->
  forallb q tr = true -> tally p tr = 0.
Proof.
  intros Hpq. induction tr as [|e tr IH]; simpl; [done|].
  intros [He Htr]%andb_true_iff. by rewrite (Hpq _ He), IH.
Qed.

Lemma balance_app (tr tr' : Trace) :
  balance (tr ++ tr') = balance tr + balance tr'.
Proof.
  induction tr as [|e tr IH]; simpl; [done|]. destruct e; lia.
Qed.

Lemma total_app (f : Routine * Trace -> Z) (gs gs' : list (Routine * Trace)) :
  total f (gs ++ gs') = total f gs + total f gs'.
Proof. induction gs as [|g gs IH]; simpl; lia. Qed.

Lemma total_insert (f : Routine * Trace -> Z) (gs : list (Routine * Trace)) :
  forall i g g',
    gs !! i = Some g -> total f (<[i := g']> gs) = total f gs - f g + f g'.
Proof.
  induction gs as [|g0 gs IH]; intros [|i] g g' Hi; simpl in *; try done.
  - injection Hi as ->. lia.
  - rewrite (IH _ _ g' Hi). lia.
Qed.

Lemma total_nonneg (f : Routine * Trace -> Z) (gs : list (Routine * Trace)) :
  (forall g, 0 <= f g) -> 0 <= total f gs.
Proof.
  intros Hf. induction gs as [|g gs IH]; simpl; [lia|].
  specialize (Hf g). lia.
Qed.

Lemma total_zero (f : Routine * Trace -> Z) (gs : list (Routine * Trace)) :
  (forall g, 0 <= f g) -> total f gs <= 0 ->
  forall i g, gs !! i = Some g -> f g = 0.
Proof.
  intros Hf. induction gs as [|g0 gs IH]; intros Ht [|i] g Hi;
    simpl in *; try done.
  - injection Hi as ->.
    pose proof (total_nonneg f gs Hf). specialize (Hf g). lia.
  - apply (IH) with (i := i); [|done].
    specialize (Hf g0). lia.
Qed.

Lemma forallb_lookup {A : Type} (p : A -> bool) (l : list A) :
  forall i x, forallb p l = true -> l !! i = Some x -> p x = true.
Proof.
  induction l as [|y l IH]; intros [|i] x H Hi; simpl in *; try done.
  - apply andb_true_iff in H as [Hy _]. by injection Hi as <-.
  - apply andb_true_iff in H as [_ Hl]. by apply (IH i).
Qed.

Lemma forallb_insert {A : Type} (p : A -> bool) (l : list A) :
  forall i x, forallb p l = true -> p x = true ->
              forallb p (<[i := x]> l) = true.
Proof.
  induction l as [|y l IH]; intros [|i] x H Hx; simpl in *; try done.
  - apply andb_true_iff in H as [_ Hl]. by rewrite Hx, Hl.
  - apply andb_true_iff in H as [Hy Hl]. by rewrite Hy, IH.
Qed.

Lemma owed_nonneg (g : Routine * Trace) : 0 <= owed g.
Proof.
  unfold owed. pose proof (tally_nonneg isDone g.2).
  destruct (isStream g.1); lia.
Qed.

Lemma closing_nonneg (g : Routine * Trace) : 0 <= closing g.
Proof. apply tally_nonneg. Qed.

Lemma stopping_nonneg (g : Routine * Trace) : 0 <= stopping g.
Proof. apply tally_nonneg. Qed.

Lemma streaming_nonneg (g : Routine * Trace) : 0 <= streaming g.
Proof. unfold streaming. destruct (isStream g.1); lia. Qed.

(** ** The shape of [main] *)

Lemma cancelShape_app (tr tr' : Trace) :
  tally isCancel tr = 0 -> cancelShape tr' = true ->
  cancelShape (tr ++ tr') = true.
Proof.
  induction tr as [|e tr IH]; simpl; [done|].
  intros Ht Hs. pose proof (tally_nonneg isCancel tr).
  destruct (isCancel e); [lia|]. apply IH; [lia|done].
Qed.

Lemma endsOk_app (tr tr' : Trace) :
  tr' <> [] -> endsOk tr' = true -> endsOk (tr ++ tr') = true.
Proof.
  intros Hne Hs. induction tr as [|e tr IH]; simpl; [done|].
  destruct (tr ++ tr') eqn:Heq; [|done].
  by apply app_eq_nil in Heq as [_ ?].
Qed.

Lemma startMarkets_events (config : Configuration) (markets : list string) :
  let tr := concat (map (startMarket config) markets) in
  forallb mainEvent tr = true
  /\ tally isCancel tr = 0
  /\ balance tr = tally isSpawn tr
  /\ tally isBulkSpawn tr = 0 /\ tally isClientSpawn tr = 0.
Proof.
  induction markets as [|market markets IH]; simpl; [done|].
  destruct IH as (H1 & H2 & H3 & H4 & H5). repeat split; try done. lia.
Qed.

Lemma andThen_cases (P : Trace -> Prop) (p : Trace * bool) (k : Trace) :
  (p.2 = false -> P p.1) -> (p.2 = true -> P (p.1 ++ k)) -> P (andThen p k).
Proof. unfold andThen. destruct p.2; auto. Qed.

Lemma serve_shape (config : Configuration) :
  forallb mainEvent (serve config) = true
  /\ cancelShape (serve config) = true
  /\ endsOk (serve config) = true
  /\ balance (serve config) = tally isSpawn (serve config)
  /\ tally isBulkSpawn (serve config) = 0
  /\ tally isClientSpawn (serve config) = 0
  /\ serve config <> [].
Proof.
  unfold serve.
  destruct (startMarkets_events config (GDAXMarkets config))
    as (H1 & H2 & H3 & H4 & H5).
  split; [|split; [|split; [|split; [|split; [|split]]]]].
  - by apply forallb_app'.
  - by apply cancelShape_app.
  - by apply endsOk_app.
  - rewrite balance_app, tally_app, H3. simpl. lia.
  - by rewrite tally_app, H4.
  - by rewrite tally_app, H5.
  - intros [_ H]%app_eq_nil. discriminate H.
Qed.

Lemma main_shape (w : World) :
  forallb mainEvent (main w) = true
  /\ cancelShape (main w) = true
  /\ endsOk (main w) = true
  /\ balance (main w) = tally isSpawn (main w)
  /\ (1 <= tally isBulkSpawn (main w) \/ tally isCancel (main w) = 0)
  /\ (1 <= tally isClientSpawn (main w) \/ tally isCancel (main w) = 0).
Proof.
  unfold main.
  destruct (newConfiguration w) as [e|config]; [by repeat split; auto|].
  destruct (serve_shape config) as (S1 & S2 & S3 & S4 & S5 & S6 & S7).
  unfold andThen, initializeElasticClient, initializeElasticBulkProcessor,
    initializeIndex.
  destruct (newClient w); [by repeat split; auto|].
  destruct (bulkDo w); [by repeat split; auto|].
  destruct (indexExists w) as [e|[|]]; [by repeat split; auto| |].
  - cbn [fst snd].
    split; [by simpl|]. split; [by simpl|].
    split; [by repeat (apply endsOk_app; [done|])|].
    split; [simpl; lia|].
    split; left; simpl; lia.
  - destruct (readTemplate w); [by repeat split; auto|].
    destruct (createIndex w); [by repeat split; auto|].
    cbn [fst snd].
    split; [by simpl|]. split; [by simpl|].
    split; [by repeat (apply endsOk_app; [done|])|].
    split; [simpl; lia|].
    split; left; simpl; lia.
Qed.

(** ** What a new goroutine brings *)

Lemma body_stream (w : World) (r : Routine) :
  isStream r = true -> forallb streamEvent (body w r) = true.
Proof.
  destruct r; try done; intros _; simpl.
  - apply indexOrderBook_streamEvents.
  - apply indexTicker_streamEvents.
Qed.

Lemma body_ok (w : World) (r : Routine) : goroutineOk (r, body w r) = true.
Proof.
  destruct r; try done.
  - by apply body_stream.
  - by apply body_stream.
  - unfold goroutineOk, body. cbn [fst snd]. by destruct (bulkClose w).
Qed.

Lemma body_owed (w : World) (r : Routine) :
  owed (r, body w r) = if isSpawn (EvGo r) then 1 else 0.
Proof.
  unfold owed. cbn [fst snd].
  destruct r; try done.
  - rewrite (tally_none isDone streamEvent); [done| |by apply body_stream].
    by intros [].
  - rewrite (tally_none isDone streamEvent); [done| |by apply body_stream].
    by intros [].
  - simpl. by destruct (bulkClose w).
Qed.

Lemma body_closing (w : World) (r : Routine) :
  closing (r, body w r) = if isBulkSpawn (EvGo r) then 1 else 0.
Proof.
  unfold closing. cbn [fst snd].
  destruct r; try done.
  - rewrite (tally_none isBulkClose streamEvent); [done| |by apply body_stream].
    by intros [].
  - rewrite (tally_none isBulkClose streamEvent); [done| |by apply body_stream].
    by intros [].
  - simpl. by destruct (bulkClose w).
Qed.

Lemma body_stopping (w : World) (r : Routine) :
  stopping (r, body w r) = if isClientSpawn (EvGo r) then 1 else 0.
Proof.
  unfold stopping. cbn [fst snd].
  destruct r; try done.
  - rewrite (tally_none isClientStop streamEvent); [done| |by apply body_stream].
    by intros [].
  - rewrite (tally_none isClientStop streamEvent); [done| |by apply body_stream].
    by intros [].
  - simpl. by destruct (bulkClose w).
Qed.

(** ** The invariant *)

Lemma Inv_boot (w : World) : Inv (boot w).
Proof.
  destruct (main_shape w) as (M1 & M2 & M3 & M4 & M5 & M6).
  constructor; simpl; try done.
  - lia.
  - destruct M5; [left; lia|by right].
  - destruct M6; [left; lia|by right].
Qed.

Lemma wait_only_shape (tr : Trace) :
  forallb isWait tr = true -> cancelShape tr = true.
Proof.
  induction tr as [|e tr IH]; simpl; [done|].
  intros [He Htr]%andb_true_iff. destruct e; try done. simpl. by apply IH.
Qed.

Lemma endsOk_tail (e : Event) (tr : Trace) :
  endsOk (e :: tr) = true -> endsOk tr = true.
Proof. simpl. by destruct tr. Qed.

Lemma Inv_main_event (w : World) (s : Proc) (e : Event) (rest : Trace) :
  Inv s -> exited s = None -> mainG s = e :: rest -> enabled s e = true ->
  Inv (effect w e (setMain rest s)).
Proof.
  intros [I1 I2 I3 I4 I5 I6 I7 I8 I9 I10 I11].
  destruct s as [m gs n c i x b d pc cs]. cbn [mainG goroutines wg ctxDone
    exited batch processorClosed clientStopped] in *.
  intros -> -> Hen.
  simpl in I1. apply andb_true_iff in I1 as [He I1].
  pose proof (endsOk_tail _ _ I3) as I3'.
  pose proof (tally_nonneg isCancel rest) as Hc.
  assert (rest = [] -> isWait e || isFatal e = true) as Hlast.
  { intros ->. exact I3. }
  destruct e; try discriminate He; clear He;
    (constructor; cbn [effect setMain mainG goroutines wg ctxDone exited batch
      processorClosed clientStopped]; try done; try (by ctx_field I6);
      try (by intros ?%Hlast)).
  - (* go: the new goroutine is well formed *)
    apply forallb_app'; [done|]. simpl. by rewrite body_ok.
  - (* go: the registration made just before pays for it *)
    rewrite total_app. simpl total. rewrite body_owed.
    destruct r; simpl in *; lia.
  - rewrite total_app. simpl total. rewrite body_closing.
    destruct r; either_field I7.
  - rewrite total_app. simpl total. rewrite body_stopping.
    destruct r; either_field I8.
  - rewrite total_app. simpl total. unfold streaming at 2. cbn [fst].
    pose proof (total_nonneg streaming gs streaming_nonneg).
    destruct (isStream r); [lia|]. intros ?. apply I9. lia.
  - (* wg.Add *)
    simpl in I5. lia.
  - (* wg.Wait returns only at zero *)
    intros _ _. simpl in Hen. lia.
  - (* cancel *)
    by apply wait_only_shape.
  - destruct I7 as [I7|[_ I7]]; [left|]; simpl in *; lia.
  - destruct I8 as [I8|[_ I8]]; [left|]; simpl in *; lia.
Qed.

Lemma goroutineOk_tail (r : Routine) (e : Event) (rest : Trace) :
  goroutineOk (r, e :: rest) = true -> goroutineOk (r, rest) = true.
Proof.
  unfold goroutineOk. cbn [fst snd]. destruct r; simpl.
  - by intros [_ ?]%andb_true_iff.
  - by intros [_ ?]%andb_true_iff.
  - by intros [_ ?]%andb_true_iff.
  - intros [[_ ?]%andb_true_iff [_ ?]%andb_true_iff]%andb_true_iff.
    by apply andb_true_iff.
  - intros [[_ ?]%andb_true_iff [_ ?]%andb_true_iff]%andb_true_iff.
    by apply andb_true_iff.
Qed.

Lemma Inv_go_event (w : World) (s : Proc) (i : nat) (r : Routine) (e : Event)
    (rest : Trace) :
  Inv s -> exited s = None -> goroutines s !! i = Some (r, e :: rest) ->
  enabled s e = true ->
  Inv (effect w e (setGoroutines (<[i := (r, rest)]> (goroutines s)) s)).
Proof.
  intros [I1 I2 I3 I4 I5 I6 I7 I8 I9 I10 I11].
  destruct s as [m gs n c j x b d pc cs]. cbn [mainG goroutines wg ctxDone
    exited batch processorClosed clientStopped] in *.
  intros -> Hi Hen.
  pose proof (forallb_lookup _ _ _ _ I4 Hi) as Hok.
  pose proof (goroutineOk_tail _ _ _ Hok) as Hok'.
  pose proof (forallb_insert _ _ i _ I4 Hok') as I4'.
  pose proof (total_insert owed gs i _ (r, rest) Hi) as Ho.
  pose proof (total_insert closing gs i _ (r, rest) Hi) as Hcl.
  pose proof (total_insert stopping gs i _ (r, rest) Hi) as Hst.
  pose proof (total_insert streaming gs i _ (r, rest) Hi) as Hsm.
  pose proof (fun H => total_zero owed gs owed_nonneg H i _ Hi) as Hoz.
  pose proof (fun H => total_zero streaming gs streaming_nonneg H i _ Hi)
    as Hsz.
  pose proof (tally_nonneg isDone rest) as Hd.
  pose proof (tally_nonneg isBulkSpawn m) as Hbs.
  pose proof (tally_nonneg isClientSpawn m) as Hcs.
  set (gs' := <[i := (r, rest)]> gs) in *.
  pose proof (total_nonneg closing gs' closing_nonneg) as Hcl'.
  pose proof (total_nonneg stopping gs' stopping_nonneg) as Hst'.
  change (owed (?a, ?p)) with (tally isDone p + streaming (a, p))
    in Ho, Hoz.
  change (closing (?a, ?p)) with (tally isBulkClose p) in Hcl.
  change (stopping (?a, ?p)) with (tally isClientStop p) in Hst.
  change (streaming (?a, ?p)) with (if isStream a then 1 else 0)
    in Ho, Hoz, Hsm, Hsz.
  unfold goroutineOk in Hok. cbn [fst snd] in Hok.
  assert ((if isStream r then streamEvent e
           else if isSpawn (EvGo r) then shutdownEvent e else watcherEvent e)
          = true
          /\ (isStream r = false ->
              isBulkClose e || isClientStop e = true ->
              0 < tally isDone rest)) as [He Hg].
  { destruct r; simpl in Hok |- *.
    - apply andb_true_iff in Hok as [? _]. split; [done|discriminate].
    - apply andb_true_iff in Hok as [? _]. split; [done|discriminate].
    - apply andb_true_iff in Hok as [? _]. split; [done|]. intros _ Hc.
      by destruct e.
    - apply andb_true_iff in Hok as [[? _]%andb_true_iff [Hg _]%andb_true_iff].
      split; [done|]. intros _ Hc. rewrite Hc in Hg. lia.
    - apply andb_true_iff in Hok as [[? _]%andb_true_iff [Hg _]%andb_true_iff].
      split; [done|]. intros _ Hc. rewrite Hc in Hg. lia. }
  clear Hok.
  constructor.
  - by by_event r e He.
  - by by_event r e He.
  - by by_event r e He.
  - by_event r e He; try done;
      by apply forallb_app'.
  - by_event r e He; rewrite ?total_app; cbn [total]; rewrite ?body_owed;
      simpl in Ho |- *; lia.
  - by by_event r e He.
  - by_event r e He; rewrite ?total_app; cbn [total]; rewrite ?body_closing;
      simpl in Hcl |- *;
      (destruct I7 as [I7|I7]; [left; destruct pc; lia|by right]).
  - by_event r e He; rewrite ?total_app; cbn [total]; rewrite ?body_stopping;
      simpl in Hst |- *;
      (destruct I8 as [I8|I8]; [left; destruct cs; lia|by right]).
  - by_event r e He; rewrite ?total_app; cbn [total];
      change (streaming (ExitOnCancel, ?p)) with 0;
      simpl in Hsm, Hsz |- *; intros Hz; try done; try (apply I9; lia); lia.
  - by_event r e He; intros ->; simpl in I5, Ho, Hoz;
      specialize (I10 eq_refl eq_refl); try done; lia.
  - by by_event r e He.
Qed.

Lemma Inv_step (w : World) (c : Choice) (s s' : Proc) :
  Inv s -> step w c s = Some s' -> Inv s'.
Proof.
  intros HI. unfold step.
  destruct (exited s) eqn:Hx; [done|].
  destruct c as [| |i|].
  - (* the signal arrives *)
    destruct HI. destruct s. intros [= <-]. by constructor.
  - destruct (mainG s) as [|e rest] eqn:Hm.
    + (* main returns *)
      destruct HI as [I1 I2 I3 I4 I5 I6 I7 I8 I9 I10 I11].
      destruct s; simpl in *. intros [= <-]. subst.
      constructor; simpl; try done. intros _. by apply I10.
    + destruct (enabled s e) eqn:Hen; [|done].
      intros [= <-]. by apply Inv_main_event.
  - destruct (goroutines s !! i) as [[r [|e rest]]|] eqn:Hi; try done.
    destruct (enabled s e) eqn:Hen; [|done].
    intros [= <-]. by apply Inv_go_event.
  - (* the workers send the batch *)
    destruct HI. destruct s. intros [= <-]. by constructor.
Qed.

Lemma reachable_Inv (w : World) (s : Proc) : reachable w s -> Inv s.
Proof.
  induction 1 as [|s c s' _ IH Hs]; [apply Inv_boot|].
  by apply (Inv_step w c s).
Qed.

Lemma run_reachable (w : World) (cs : list Choice) :
  forall s s', reachable w s -> run w cs s = Some s' -> reachable w s'.
Proof.
  induction cs as [|c cs IH]; intros s s' Hr; simpl.
  - by intros [= <-].
  - destruct (step w c s) as [s1|] eqn:Hs; [|done].
    apply IH. by apply (reachable_step w s c).
Qed.

Lemma after_reachable (w : World) (cs : list Choice) : reachable w (after w cs).
Proof.
  unfold after. destruct (run w cs (boot w)) as [s|] eqn:Hr; simpl.
  - apply (run_reachable w cs (boot w)); [constructor|done].
  - constructor.
Qed.

(** ** Shutdown *)





(** C5, as the code has it: the process exits with status 0, that is by
    [main] returning from [wg.Wait()], only when the WaitGroup counter is
    zero. *)
Theorem main_returns_at_zero (w : World) (s : Proc) :
  reachable w s -> exited s = Some 0 -> wg s = 0.
Proof. intros Hr. apply inv_exit. by apply (reachable_Inv w). Qed.

Lemma main_returns_at_zero_witness :
  wg (after Sample.quiet Sample.cleanExit) = 0.
Proof.
  apply (main_returns_at_zero Sample.quiet).
  - apply after_reachable.
  - vm_compute. reflexivity.
Defined.

(** C5 as stated fails: with one market configured, the watcher of the
    ticker task exits the process right after [cancel()], while the counter
    still holds the four registrations made by [main]. *)
Lemma exit_with_tasks_outstanding :
  ~ (forall w s,
       reachable w s -> interrupted s = true -> is_Some (exited s) ->
       wg s = 0).
Proof.
  intros H.
  specialize (H Sample.oneMarket (after Sample.oneMarket Sample.killed)
                (after_reachable _ _)).
  vm_compute in H. specialize (H eq_refl (ex_intro _ _ eq_refl)).
  discriminate H.
Qed.




(** ** More on one incarnation *)

Lemma iteration_loopEvents (indexName typ : string) (message : gdax.Message)
    (t : Tick) :
  forallb loopEvent (iteration indexName typ message t).1 = true.
Proof.
  unfold iteration.
  destruct (readJSON t) as [[fr [e|]]|]; try done.
  destruct (time.IsZero _); [done|].
  by destruct (addRequest t).
Qed.

Lemma readLoop_loopEvents (indexName typ : string) (ts : list Tick) :
  forall message,
    forallb loopEvent (readLoop indexName typ message ts).1 = true.
Proof.
  induction ts as [|t ts IH]; intros message; [done|].
  rewrite readLoop_cons.
  pose proof (iteration_loopEvents indexName typ message t) as Hi.
  destruct (iteration indexName typ message t) as [evs [m'|]]; simpl in *.
  - by apply forallb_app'.
  - done.
Qed.

Lemma iteration_exit (indexName typ indexName' typ' : string)
    (message : gdax.Message) (t : Tick) :
  (iteration indexName typ message t).2
  = (iteration indexName' typ' message t).2.
Proof.
  unfold iteration.
  destruct (readJSON t) as [[fr [e|]]|]; try done.
  destruct (time.IsZero _); [done|].
  by destruct (addRequest t).
Qed.

Lemma readLoop_exit (indexName typ indexName' typ' : string) (ts : list Tick) :
  forall message,
    (readLoop indexName typ message ts).2
    = (readLoop indexName' typ' message ts).2.
Proof.
  induction ts as [|t ts IH]; intros message; [done|].
  rewrite !readLoop_cons.
  pose proof (iteration_exit indexName typ indexName' typ' message t) as Hi.
  destruct (iteration indexName typ message t) as [evs [m1|]];
    destruct (iteration indexName' typ' message t) as [evs' [m2|]];
    simpl in Hi; try done.
  injection Hi as ->. simpl. apply IH.
Qed.

Lemma stream_exit (channel typ indexName coin : string) (l : Life) :
  (stream channel typ indexName coin l).2
  = match dial l, writeJSON l with
    | Ret _, Ret _ => (readLoop indexName typ gdax.empty (ticks l)).2
    | _, _ => Panicked
    end.
Proof.
  unfold stream. destruct (dial l); [|done]. destruct (writeJSON l); [|done].
  by destruct (readLoop indexName typ gdax.empty (ticks l)) as [tr [m|]].
Qed.

Lemma stream_crashes (channel typ indexName coin : string) (l : Life) :
  recovered (stream channel typ indexName coin l).2 = crashes l.
Proof.
  unfold crashes. rewrite !stream_exit.
  destruct (dial l); [|done]. destruct (writeJSON l); [|done].
  by rewrite (readLoop_exit indexName typ "" "").
Qed.

Lemma stream_written (channel typ indexName coin : string) (l : Life) :
  written (stream channel typ indexName coin l).1
  = match dial l with
    | Ret _ => [subscribeMessage channel coin]
    | Panic => []
    end.
Proof.
  destruct (dial l) as [d|] eqn:Hd.
  - destruct (writeJSON l) as [wj|] eqn:Hw.
    + destruct (stream_enters_loop channel typ indexName coin l d wj Hd Hw)
        as (unwind & Hs & _ & _ & Hu).
      rewrite Hs. cbn [fst].
      change (written (EvDial feedURL :: ?t)) with (written t).
      rewrite written_app, written_logError.
      change (written (EvWriteJSON ?m :: ?t)) with (m :: written t).
      by rewrite !written_app, written_logError, readLoop_written, Hu.
    + unfold stream. rewrite Hd, Hw. cbn [fst].
      change (written ((EvDial feedURL :: ?t) ++ ?u)) with (written (t ++ u)).
      by rewrite written_app, written_logError.
  - unfold stream. by rewrite Hd.
Qed.

Lemma stream_dials_once (channel typ indexName coin : string) (l : Life) :
  tally isDial (stream channel typ indexName coin l).1 = 1.
Proof.
  assert (forall err, tally isDial (logError err) = 0) as Hlog.
  { by intros [e|]. }
  unfold stream. destruct (dial l) as [d|]; [|done].
  destruct (writeJSON l) as [wj|].
  - pose proof (readLoop_loopEvents indexName typ (ticks l) gdax.empty) as Hl.
    apply (tally_none isDial) in Hl; [|by intros []].
    destruct (readLoop indexName typ gdax.empty (ticks l)) as [tr [m|]];
      cbn [fst snd] in *;
      rewrite !tally_app; simpl; rewrite !tally_app, !Hlog, Hl; simpl; lia.
  - cbn [fst]. rewrite tally_app. simpl. rewrite Hlog. lia.
Qed.

(** X1: the deferred calls.  An incarnation that panics closes the
    connection exactly once if [Dial] had returned (and this is the last
    thing it does before [restart...] runs) and not at all if [Dial] itself
    panicked; it stops the ticker exactly when it had created one.  An
    incarnation that has not panicked has closed and stopped nothing. *)
Theorem deferred_cleanup (channel typ indexName coin : string) (l : Life) :
  let tr := (stream channel typ indexName coin l).1 in
  let x := (stream channel typ indexName coin l).2 in
  tally isConnClose tr
  = (if recovered x then match dial l with Ret _ => 1 | Panic => 0 end else 0)
  /\ tally isTickerStop tr = (if recovered x then tally isNewTicker tr else 0)
  /\ tally isDial tr = 1
  /\ (recovered x = true -> forall d, dial l = Ret d ->
      last tr = Some EvConnClose).
Proof.
  assert (forall err,
            tally isConnClose (logError err) = 0
            /\ tally isTickerStop (logError err) = 0
            /\ tally isNewTicker (logError err) = 0
            /\ tally isDial (logError err) = 0) as Hlog.
  { by intros [e|]. }
  assert (forall tr, forallb loopEvent tr = true ->
            tally isConnClose tr = 0 /\ tally isTickerStop tr = 0
            /\ tally isNewTicker tr = 0 /\ tally isDial tr = 0) as Hloop.
  { intros tr Htr.
    repeat split; (apply (tally_none _ loopEvent); [by intros []|done]). }
  unfold stream. destruct (dial l) as [d|]; [|done].
  destruct (Hlog d) as (D1 & D2 & D3 & D4).
  destruct (writeJSON l) as [wj|].
  - destruct (Hlog wj) as (W1 & W2 & W3 & W4).
    pose proof (readLoop_loopEvents indexName typ (ticks l) gdax.empty) as Hl.
    destruct (readLoop indexName typ gdax.empty (ticks l)) as [tr [m|]];
      cbn [fst snd recovered];
      destruct (Hloop tr Hl) as (L1 & L2 & L3 & L4).
    + repeat split; [| | |done];
        rewrite !tally_app; simpl; rewrite !tally_app; simpl; lia.
    + repeat split;
        try (rewrite !tally_app; simpl; rewrite !tally_app; simpl; lia).
      intros _ d' _. rewrite !app_assoc.
      change [EvTickerStop; EvConnClose]
        with ([EvTickerStop] ++ [EvConnClose]).
      by rewrite app_assoc, last_snoc.
  - cbn [fst snd recovered]. repeat split;
      try (rewrite !tally_app; simpl; lia).
    intros _ d' _.
    change [EvWriteJSON (subscribeMessage channel coin); EvConnClose]
      with ([EvWriteJSON (subscribeMessage channel coin)] ++ [EvConnClose]).
    by rewrite app_assoc, last_snoc.
Qed.

(** ** More on supervision *)

Lemma entered_app (tr tr' : Trace) :
  entered (tr ++ tr') = entered tr ++ entered tr'.
Proof. apply omap_app. Qed.

Lemma slept_app (tr tr' : Trace) : slept (tr ++ tr') = slept tr ++ slept tr'.
Proof. apply omap_app. Qed.

Lemma streamBody_quiet (channel typ indexName coin : string) (l : Life) :
  entered (stream channel typ indexName coin l).1 = []
  /\ slept (stream channel typ indexName coin l).1 = []
  /\ balance (stream channel typ indexName coin l).1 = 0.
Proof.
  assert (forall tr, forallb loopEvent tr = true ->
            entered tr = [] /\ slept tr = [] /\ balance tr = 0) as Hloop.
  { induction tr as [|e tr IH]; [done|]. simpl.
    intros [He Htr]%andb_true_iff. destruct (IH Htr) as (? & ? & ?).
    by destruct e. }
  unfold stream. destruct (dial l) as [d|]; [|done].
  destruct (writeJSON l) as [wj|].
  - pose proof (readLoop_loopEvents indexName typ (ticks l) gdax.empty) as Hl.
    destruct (readLoop indexName typ gdax.empty (ticks l)) as [tr [m|]];
      cbn [fst snd]; destruct (Hloop tr Hl) as (L1 & L2 & L3);
      destruct d, wj; simpl;
      rewrite ?entered_app, ?slept_app, ?balance_app, ?L1, ?L2, ?L3; done.
  - cbn [fst snd]. by destruct d.
Qed.

(** X2: however often the ticker task panics, every incarnation is entered
    with the index name and the coin of the first one, and every frame
    written to a connection is the subscribe frame for that coin on the
    "ticker" channel. *)
Theorem ticker_keeps_subscription (lives : list Life) (indexName coin : string) :
  Forall (fun r => r = IndexTicker indexName coin)
    (entered (indexTicker lives indexName coin))
  /\ Forall (fun m => m = subscribeMessage "ticker" coin)
       (written (indexTicker lives indexName coin)).
Proof.
  induction lives as [|l lives [IHe IHw]]; [done|].
  cbn [indexTicker].
  pose proof (streamBody_quiet "ticker" "ticker" indexName coin l)
    as (He & _ & _).
  pose proof (stream_written "ticker" "ticker" indexName coin l) as Hw.
  destruct (stream "ticker" "ticker" indexName coin l) as [tr x].
  cbn [fst snd] in *. split.
  - change (entered (EvEnter ?r :: ?t)) with (r :: entered t).
    rewrite entered_app, He. apply Forall_cons. split; [done|].
    unfold restartTicker. by destruct (recovered x).
  - change (written (EvEnter ?r :: ?t)) with (written t).
    rewrite written_app, Hw. apply Forall_app. split.
    + destruct (dial l); [|done]. by apply Forall_singleton.
    + unfold restartTicker. by destruct (recovered x).
Qed.

(** X3: restarts are unbounded and uniform.  Over any sequence of lives,
    each crash of a stream task is followed by one sleep of exactly ten
    seconds and one [wg.Add(1)], and nothing else sleeps or touches the
    WaitGroup; every incarnation dials once.  This holds for the ticker and
    for the order-book task. *)
Theorem one_backoff_per_crash (lives : list Life) (indexName coin : string) :
  (slept (indexTicker lives indexName coin)
   = replicate (restarts lives) (10 * time.Second)
   /\ balance (indexTicker lives indexName coin) = Z.of_nat (restarts lives)
   /\ length (entered (indexTicker lives indexName coin))
      = Nat.min (length lives) (S (restarts lives))
   /\ tally isDial (indexTicker lives indexName coin)
      = Z.of_nat (length (entered (indexTicker lives indexName coin))))
  /\ (slept (indexOrderBook lives indexName coin)
      = replicate (restarts lives) (10 * time.Second)
      /\ balance (indexOrderBook lives indexName coin)
         = Z.of_nat (restarts lives)
      /\ length (entered (indexOrderBook lives indexName coin))
         = Nat.min (length lives) (S (restarts lives))
      /\ tally isDial (indexOrderBook lives indexName coin)
         = Z.of_nat (length (entered (indexOrderBook lives indexName coin)))).
Proof.
  split.
  - revert indexName coin.
    induction lives as [|l lives IH]; intros indexName coin; [done|].
    cbn [indexTicker restarts].
    pose proof (streamBody_quiet "ticker" "ticker" indexName coin l)
      as (He & Hs & Hb).
    pose proof (stream_dials_once "ticker" "ticker" indexName coin l) as Hd.
    pose proof (stream_crashes "ticker" "ticker" indexName coin l) as Hc.
    destruct (stream "ticker" "ticker" indexName coin l) as [tr x].
    cbn [fst snd] in *. rewrite Hc. unfold restartTicker.
    destruct (IH indexName coin) as (I1 & I2 & I3 & I4).
    change (slept (EvEnter ?r :: ?t)) with (slept t).
    change (entered (EvEnter ?r :: ?t)) with (r :: entered t).
    change (balance (EvEnter ?r :: ?t)) with (balance t).
    change (tally isDial (EvEnter ?r :: ?t)) with (tally isDial t).
    rewrite slept_app, entered_app, balance_app, tally_app, Hs, He, Hb, Hd.
    destruct (crashes l); cbn; unfold slept, entered in I1, I3, I4 |- *.
    + rewrite I1, I2, I3, I4. repeat split; try done; lia.
    + repeat split; try done. by destruct lives.
  - revert indexName coin.
    induction lives as [|l lives IH]; intros indexName coin; [done|].
    cbn [indexOrderBook restarts].
    pose proof (streamBody_quiet "level2" "snap-shot" indexName coin l)
      as (He & Hs & Hb).
    pose proof (stream_dials_once "level2" "snap-shot" indexName coin l)
      as Hd.
    pose proof (stream_crashes "level2" "snap-shot" indexName coin l) as Hc.
    destruct (stream "level2" "snap-shot" indexName coin l) as [tr x].
    cbn [fst snd] in *. rewrite Hc. unfold restartOrderBook.
    destruct (IH coin indexName) as (I1 & I2 & I3 & I4).
    change (slept (EvEnter ?r :: ?t)) with (slept t).
    change (entered (EvEnter ?r :: ?t)) with (r :: entered t).
    change (balance (EvEnter ?r :: ?t)) with (balance t).
    change (tally isDial (EvEnter ?r :: ?t)) with (tally isDial t).
    rewrite slept_app, entered_app, balance_app, tally_app, Hs, He, Hb, Hd.
    destruct (crashes l); cbn; unfold slept, entered in I1, I3, I4 |- *.
    + rewrite I1, I2, I3, I4. repeat split; try done; lia.
    + repeat split; try done. by destruct lives.
Qed.

Lemma iteration_requests (indexName typ : string) (message : gdax.Message)
    (t : Tick) :
  Forall (fun r => elastic.Index r = indexName /\ elastic.Type_ r = typ)
    (requests (iteration indexName typ message t).1).
Proof.
  unfold iteration.
  destruct (readJSON t) as [[fr [e|]]|]; try done.
  destruct (time.IsZero _); [done|].
  destruct (addRequest t); [|done]. by apply Forall_singleton.
Qed.

Lemma readLoop_requests (indexName typ : string) (ts : list Tick) :
  forall message,
    Forall (fun r => elastic.Index r = indexName /\ elastic.Type_ r = typ)
      (requests (readLoop indexName typ message ts).1).
Proof.
  induction ts as [|t ts IH]; intros message; [done|].
  rewrite readLoop_cons.
  pose proof (iteration_requests indexName typ message t) as Hi.
  destruct (iteration indexName typ message t) as [evs [m'|]]; simpl in *.
  - rewrite requests_app. apply Forall_app. by split.
  - done.
Qed.

Lemma stream_requests_of_loop (channel typ indexName coin : string) (l : Life) :
  requests (stream channel typ indexName coin l).1 = []
  \/ requests (stream channel typ indexName coin l).1
     = requests (readLoop indexName typ gdax.empty (ticks l)).1.
Proof.
  destruct (dial l) as [d|] eqn:Hd.
  - destruct (writeJSON l) as [wj|] eqn:Hw.
    + right. by apply (stream_requests channel typ indexName coin l d wj).
    + left. unfold stream. rewrite Hd, Hw. cbn [fst].
      rewrite requests_app.
      change (requests (EvDial feedURL :: ?t)) with (requests t).
      by rewrite requests_logError.
  - left. unfold stream. by rewrite Hd.
Qed.

(** X4: whatever the feed does and however often the tasks restart, every
    request the ticker task hands to the bulk processor is for the index
    name the task was started with and has type "ticker"; every request of
    the order-book task has type "snap-shot" and is for one of the two
    strings the task was started with. *)
Theorem requests_across_restarts (lives : list Life) (indexName coin : string) :
  Forall (fun r => elastic.Index r = indexName /\ elastic.Type_ r = "ticker")
    (requests (indexTicker lives indexName coin))
  /\ Forall (fun r => (elastic.Index r = indexName \/ elastic.Index r = coin)
                      /\ elastic.Type_ r = "snap-shot")
       (requests (indexOrderBook lives indexName coin)).
Proof.
  split.
  - induction lives as [|l lives IH]; [done|].
    cbn [indexTicker].
    pose proof (stream_requests_of_loop "ticker" "ticker" indexName coin l)
      as Hs.
    pose proof (readLoop_requests indexName "ticker" (ticks l) gdax.empty)
      as Hl.
    destruct (stream "ticker" "ticker" indexName coin l) as [tr x].
    cbn [fst snd] in *.
    change (requests (EvEnter ?r :: ?t)) with (requests t).
    rewrite requests_app. apply Forall_app. split.
    + destruct Hs as [->| ->]; [done|exact Hl].
    + unfold restartTicker. destruct (recovered x); [|done]. exact IH.
  - revert indexName coin.
    induction lives as [|l lives IH]; intros indexName coin; [done|].
    cbn [indexOrderBook].
    pose proof (stream_requests_of_loop "level2" "snap-shot" indexName coin l)
      as Hs.
    pose proof (readLoop_requests indexName "snap-shot" (ticks l) gdax.empty)
      as Hl.
    destruct (stream "level2" "snap-shot" indexName coin l) as [tr x].
    cbn [fst snd] in *.
    change (requests (EvEnter ?r :: ?t)) with (requests t).
    rewrite requests_app. apply Forall_app. split.
    + destruct Hs as [->| ->]; [done|].
      eapply Forall_impl; [exact Hl|]. intros r [? ?]. split; [by left|done].
    + unfold restartOrderBook. destruct (recovered x); [|done].
      eapply Forall_impl; [exact (IH coin indexName)|].
      intros r [[?|?] ?]; (split; [|done]); [by right|by left].
Qed.

(** X5: the documents a read loop hands over are, in the order read, some
    of the envelopes it decoded: nothing is reordered, duplicated or made
    up, whatever mixture of errors, frames without timestamp and panics
    the ticks bring. *)
Theorem documents_in_read_order (indexName typ : string) (ts : list Tick)
    (message : gdax.Message) :
  sublist (map elastic.Doc (requests (readLoop indexName typ message ts).1))
    (envelopes message ts).
Proof.
  revert message. induction ts as [|t ts IH]; intros message; [done|].
  rewrite readLoop_cons. cbn [envelopes]. unfold iteration.
  destruct (readJSON t) as [[fr err]|]; [|done].
  destruct err as [e|]; cbn [fst snd].
  - apply sublist_cons. apply IH.
  - destruct (time.IsZero _); cbn [fst snd].
    + apply sublist_cons. apply IH.
    + destruct (addRequest t); cbn [fst snd].
      * apply sublist_skip. apply IH.
      * apply sublist_nil_l.
Qed.

(** ** More on [main] *)

Lemma registeredFrom_app (tr tr' : Trace) :
  forall pending,
    registeredFrom pending tr = true -> registeredFrom false tr' = true ->
    registeredFrom pending (tr ++ tr') = true.
Proof.
  induction tr as [|e tr IH]; intros pending H H'; simpl in *.
  - by destruct pending.
  - destruct e;
      repeat (apply andb_true_iff in H as [H ?]);
      repeat (apply andb_true_iff; split); try done; by apply IH.
Qed.

Lemma spawned_app (tr tr' : Trace) :
  spawned (tr ++ tr') = spawned tr ++ spawned tr'.
Proof. apply omap_app. Qed.

Lemma startMarkets_registered (config : Configuration) (markets : list string) :
  registeredFrom false (concat (map (startMarket config) markets)) = true
  /\ covered (concat (map (startMarket config) markets)) = true
  /\ spawned (concat (map (startMarket config) markets))
     = concat (map (marketTasks (ElasticIndexName config)) markets)
  /\ balance (concat (map (startMarket config) markets))
     = 2 * Z.of_nat (length markets)
  /\ tally isStreamSpawn (concat (map (startMarket config) markets))
     = 2 * Z.of_nat (length markets)
  /\ tally isFatal (concat (map (startMarket config) markets)) = 0
  /\ signalFirst (concat (map (startMarket config) markets) ++ waitForSignal)
     = true.
Proof.
  induction markets as [|market markets (H1 & H2 & H3 & H4 & H5 & H6 & H7)];
    [done|].
  pose proof (startMarkets_events config markets) as (_ & _ & Hb & _).
  cbn [map concat length]. repeat split.
  - simpl. exact H1.
  - simpl in *.
    replace (balance (concat (map (startMarket config) markets)))
      with (tally isSpawn (concat (map (startMarket config) markets))).
    rewrite H2.
    pose proof (tally_nonneg isSpawn (concat (map (startMarket config) markets))).
    repeat (apply andb_true_iff; split); try done; apply Z.leb_le; lia.
  - rewrite spawned_app, H3. reflexivity.
  - simpl. rewrite H4. lia.
  - simpl. rewrite H5. lia.
  - simpl. exact H6.
  - simpl. exact H7.
Qed.

Lemma covered_head (tr : Trace) :
  covered tr = true -> balance tr <= tally isSpawn tr.
Proof.
  destruct tr as [|e tr]; [done|].
  cbn [covered]. intros [H _]%andb_true_iff. by apply Z.leb_le.
Qed.

Lemma covered_app (tr tr' : Trace) :
  covered tr = true -> covered tr' = true -> covered (tr ++ tr') = true.
Proof.
  intros H H'. pose proof (covered_head tr' H') as Hh.
  induction tr as [|e tr IH]; [done|].
  change ((e :: tr) ++ tr') with (e :: (tr ++ tr')).
  cbn [covered] in H |- *. apply andb_true_iff in H as [He Htr].
  apply andb_true_iff. split; [|by apply IH].
  apply Z.leb_le in He. apply Z.leb_le.
  change (e :: (tr ++ tr')) with ((e :: tr) ++ tr').
  rewrite balance_app, tally_app. lia.
Qed.

Lemma signalFirst_app (tr tr' : Trace) :
  tally isCancel tr = 0 -> signalFirst tr' = true ->
  signalFirst (tr ++ tr') = true.
Proof.
  intros H H'. induction tr as [|e tr IH]; [done|].
  simpl in *. pose proof (tally_nonneg isCancel tr).
  destruct (isSignal e); [done|].
  destruct (isCancel e); [lia|]. apply IH. lia.
Qed.

Lemma serve_more (config : Configuration) :
  registeredFrom false (serve config) = true
  /\ covered (serve config) = true
  /\ signalFirst (serve config) = true
  /\ spawned (serve config)
     = concat (map (marketTasks (ElasticIndexName config))
                 (GDAXMarkets config))
  /\ balance (serve config) = 2 * Z.of_nat (length (GDAXMarkets config))
  /\ tally isStreamSpawn (serve config)
     = 2 * Z.of_nat (length (GDAXMarkets config))
  /\ tally isFatal (serve config) = 0
  /\ 0 < tally isCancel (serve config).
Proof.
  unfold serve.
  destruct (startMarkets_registered config (GDAXMarkets config))
    as (H1 & H2 & H3 & H4 & H5 & H6 & _).
  destruct (startMarkets_events config (GDAXMarkets config))
    as (_ & Hc & _).
  split; [|split; [|split; [|split; [|split; [|split; [|split]]]]]].
  - by apply registeredFrom_app.
  - by apply covered_app.
  - by apply signalFirst_app.
  - by rewrite spawned_app, H3, app_nil_r.
  - rewrite balance_app, H4. simpl. lia.
  - rewrite tally_app, H5. simpl. lia.
  - by rewrite tally_app, H6.
  - rewrite tally_app, Hc. simpl. lia.
Qed.

Lemma main_more (w : World) :
  registered (main w) = true
  /\ covered (main w) = true
  /\ signalFirst (main w) = true
  /\ (0 < tally isCancel (main w) \/ 0 < tally isFatal (main w)).
Proof.
  unfold registered. main_cases w;
    try by (split; [done|]; split; [done|]; split; [done|]; right).
  - destruct (serve_more config) as (S1 & S2 & S3 & _ & _ & _ & _ & S8).
    pose proof (covered_head _ S2).
    split; [done|]. split; [|split; [done|left; simpl; lia]].
    simpl. rewrite S2.
    repeat (apply andb_true_iff; split); try done; apply Z.leb_le; lia.
  - destruct (serve_more config) as (S1 & S2 & S3 & _ & _ & _ & _ & S8).
    pose proof (covered_head _ S2).
    split; [done|]. split; [|split; [done|left; simpl; lia]].
    simpl. rewrite S2.
    repeat (apply andb_true_iff; split); try done; apply Z.leb_le; lia.
Qed.

Lemma main_started (w : World) (config : Configuration) :
  startsUp w = true -> newConfiguration w = inr config ->
  spawned (main w)
  = StopClient :: CloseBulkProcessor
      :: concat (map (marketTasks (ElasticIndexName config))
                   (GDAXMarkets config))
  /\ balance (main w) = 2 + 2 * Z.of_nat (length (GDAXMarkets config))
  /\ tally isStreamSpawn (main w)
     = 2 * Z.of_nat (length (GDAXMarkets config))
  /\ tally isFatal (main w) = 0
  /\ exists pre, main w = pre ++ waitForSignal ++ [EvCancel; EvWgWait].
Proof.
  unfold startsUp. intros Hs Hc. revert Hs. unfold main. rewrite Hc.
  destruct (serve_more config) as (_ & _ & _ & S4 & S5 & S6 & S7 & _).
  unfold andThen, initializeElasticClient, initializeElasticBulkProcessor,
    initializeIndex.
  destruct (newClient w); [done|]. destruct (bulkDo w); [done|].
  destruct (indexExists w) as [?|[|]]; [done| |].
  - intros _. cbn [fst snd]. repeat split.
    + rewrite !spawned_app, S4. reflexivity.
    + rewrite !balance_app, S5. simpl. lia.
    + rewrite !tally_app, S6. simpl. lia.
    + rewrite !tally_app, S7. simpl. lia.
    + unfold serve. eexists. rewrite !app_assoc. reflexivity.
  - destruct (readTemplate w); [done|]. destruct (createIndex w); [done|].
    intros _. cbn [fst snd]. repeat split.
    + rewrite !spawned_app, S4. reflexivity.
    + rewrite !balance_app, S5. simpl. lia.
    + rewrite !tally_app, S6. simpl. lia.
    + rewrite !tally_app, S7. simpl. lia.
    + unfold serve. eexists. rewrite !app_assoc. reflexivity.
Qed.

Lemma main_failed (w : World) :
  startsUp w = false ->
  tally isStreamSpawn (main w) = 0
  /\ tally isCancel (main w) = 0
  /\ tally isSignal (main w) = 0
  /\ exists pre msg, main w = pre ++ [EvFatal msg].
Proof.
  unfold startsUp. main_cases w; try done; intros _;
    (split; [done|]; split; [done|]; split; [done|]).
  - by exists [], (Wraps s "Error loading configuration").
  - by exists [], (Wraps s "Could not connect to elastic cluster").
  - eexists _, _. reflexivity.
  - change [?a; EvFatal ?m] with ([a] ++ [EvFatal m]).
    eexists _, _. rewrite !app_assoc. reflexivity.
  - change [?a; EvFatal ?m] with ([a] ++ [EvFatal m]).
    eexists _, _. rewrite !app_assoc. reflexivity.
  - change [?a; EvFatal ?m] with ([a] ++ [EvFatal m]).
    eexists _, _. rewrite !app_assoc. reflexivity.
Qed.

(** ** The second invariant *)

Lemma tally_suffix (p : Event -> bool) (pre tr : Trace) (e : Event) :
  p e = true -> 0 < tally p (pre ++ e :: tr).
Proof.
  intros He. rewrite tally_app. simpl. rewrite He.
  pose proof (tally_nonneg p pre). pose proof (tally_nonneg p tr). lia.
Qed.

Lemma stream_gated (tr : Trace) : forallb streamEvent tr = true -> gated tr = true.
Proof.
  induction tr as [|e tr IH]; [done|]. simpl.
  intros [He Htr]%andb_true_iff. rewrite (IH Htr). by destruct e.
Qed.

Lemma body_gated (w : World) (r : Routine) : gated (body w r) = true.
Proof.
  destruct r; try done; apply stream_gated; by apply body_stream.
Qed.

Lemma body_streaming (w : World) (r : Routine) :
  streaming (r, body w r) = if isStreamSpawn (EvGo r) then 1 else 0.
Proof. done. Qed.

Lemma Inv2_boot (w : World) : Inv2 w (boot w).
Proof.
  destruct (main_more w) as (M1 & M2 & M3 & M4).
  constructor; simpl; try done.
  - by right.
  - by right.
  - by left.
  - intros _. by right.
  - by exists [].
  - lia.
Qed.

Lemma Inv2_main_event (w : World) (s : Proc) (e : Event) (rest : Trace) :
  Inv s -> Inv2 w s -> exited s = None -> mainG s = e :: rest ->
  enabled s e = true ->
  Inv2 w (effect w e (setMain rest s)).
Proof.
  intros [I1 _ _ _ _ _ _ _ _ _ _] [A B C D E F G H I K L M].
  destruct s as [m gs n c i x b d pc cs]. cbn [mainG goroutines wg ctxDone
    interrupted exited batch processorClosed clientStopped] in *.
  intros -> -> Hen.
  simpl in I1. apply andb_true_iff in I1 as [He _].
  cbn [covered] in A. apply andb_true_iff in A as [_ A].
  destruct G as [pre G].
  assert (exists pre', main w = pre' ++ rest) as G'.
  { exists (pre ++ [e]). by rewrite <- app_assoc. }
  pose proof (fun p H => tally_suffix p pre rest e H) as Hin.
  rewrite <- G in Hin.
  destruct e; try discriminate He; clear He;
    (constructor; cbn [effect setMain mainG goroutines wg ctxDone interrupted
       exited batch processorClosed clientStopped]; try done).
  - (* Fatal *)
    right. right. by apply Hin.
  - intros code [= <-]. by right.
  - (* go *)
    destruct D as [?|(Hall & ? & ?)]; [by left|right].
    split; [|done]. apply forallb_app'; [done|].
    simpl. by rewrite body_gated.
  - rewrite total_app. cbn [total]. rewrite body_streaming.
    cbn [tally] in H. destruct (isStreamSpawn (EvGo r)); lia.
  - (* cancel *)
    destruct B as [?|B]; [by left|done].
  - intros _. by destruct B as [?|B].
  - by left.
  - by left.
  - intros _. by left.
  - intros _. by apply Hin.
  - (* the signal *)
    left. exact Hen.
Qed.

Lemma goroutine_next (r : Routine) (e : Event) (rest : Trace) :
  goroutineOk (r, e :: rest) = true ->
  (if isStream r then streamEvent e
   else if isSpawn (EvGo r) then shutdownEvent e else watcherEvent e) = true.
Proof.
  unfold goroutineOk. cbn [fst snd]. destruct r; simpl.
  - by intros [? _]%andb_true_iff.
  - by intros [? _]%andb_true_iff.
  - by intros [? _]%andb_true_iff.
  - by intros [[? _]%andb_true_iff _]%andb_true_iff.
  - by intros [[? _]%andb_true_iff _]%andb_true_iff.
Qed.

Lemma gated_next (c : bool) (e : Event) (rest : Trace) :
  gated (e :: rest) = true -> (isCtxDone e = true -> c = true) ->
  c = true
  \/ (gated rest = true
      /\ isBulkClose e = false /\ isClientStop e = false /\ isExit e = false).
Proof.
  simpl. destruct (isCtxDone e); [intros _ H; left; by apply H|].
  intros [Hn Hg]%andb_true_iff _. right. split; [done|].
  by destruct (isBulkClose e), (isClientStop e), (isExit e).
Qed.

Lemma Inv2_go_event (w : World) (s : Proc) (i : nat) (r : Routine) (e : Event)
    (rest : Trace) :
  Inv s -> Inv2 w s -> exited s = None ->
  goroutines s !! i = Some (r, e :: rest) -> enabled s e = true ->
  Inv2 w (effect w e (setGoroutines (<[i := (r, rest)]> (goroutines s)) s)).
Proof.
  intros [_ _ _ I4 _ _ _ _ _ _ _] [A B C D E F G H I K L M].
  destruct s as [m gs n c j x b d pc cs]. cbn [mainG goroutines wg ctxDone
    interrupted exited batch processorClosed clientStopped] in *.
  intros -> Hi Hen.
  pose proof (goroutine_next _ _ _ (forallb_lookup _ _ _ _ I4 Hi)) as He.
  pose proof (total_insert streaming gs i _ (r, rest) Hi) as Hsm.
  change (streaming (?a, ?p)) with (if isStream a then 1 else 0) in Hsm.
  assert (c = true
          \/ (forallb (fun g => gated g.2) (<[i := (r, rest)]> gs) = true
              /\ pc = false /\ cs = false
              /\ isBulkClose e = false /\ isClientStop e = false
              /\ isExit e = false)) as D'.
  { destruct D as [?|(Hall & ? & ?)]; [by left|].
    pose proof (forallb_lookup _ _ _ _ Hall Hi) as Hg. cbn [snd] in Hg.
    destruct (gated_next c e rest Hg) as [?|(? & ? & ? & ?)].
    - intros Hd. destruct e; try discriminate Hd. exact Hen.
    - by left.
    - right. split; [|done]. by apply forallb_insert. }
  clear D.
  set (gs' := <[i := (r, rest)]> gs) in *.
  constructor.
  - by by_event r e He.
  - by by_event r e He.
  - by by_event r e He.
  - destruct D' as [?|(Hall & ? & ? & ? & ? & ?)];
      by_event r e He; try (by left); right;
      try done; (split; [|done]); by apply forallb_app'.
  - destruct D' as [?|(Hall & ? & ? & ? & ? & ?)];
      by_event r e He; try done; try (by left); right; by left.
  - by by_event r e He.
  - by by_event r e He.
  - by_event r e He; rewrite ?total_app; cbn [total];
      change (streaming (ExitOnCancel, ?p)) with 0; simpl in Hsm; lia.
  - by by_event r e He.
  - by by_event r e He.
  - by_event r e He; try done. intros code [= <-]. by right.
  - by by_event r e He.
Qed.

Lemma Inv2_step (w : World) (c : Choice) (s s' : Proc) :
  Inv s -> Inv2 w s -> step w c s = Some s' -> Inv2 w s'.
Proof.
  intros HI HJ. unfold step.
  destruct (exited s) eqn:Hx; [done|].
  destruct c as [| |i|].
  - (* the signal arrives *)
    destruct HJ. destruct s. intros [= <-]. constructor; try done. by left.
  - destruct (mainG s) as [|e rest] eqn:Hm.
    + (* main returns *)
      destruct HI as [I1 I2 I3 I4 I5 I6 I7 I8 I9 I10 I11].
      destruct HJ as [A B C D E F G H I K L M].
      destruct s; simpl in *. intros [= <-]. subst.
      assert (ctxDone0 = true) as Hc.
      { destruct (F eq_refl) as [?|[?|?]]; [done|simpl in *; lia..]. }
      constructor; simpl; try done.
      * right. by left.
      * intros _. specialize (I10 eq_refl eq_refl). subst.
        simpl in I5, H.
        pose proof (total_nonneg streaming goroutines0 streaming_nonneg).
        assert (total streaming goroutines0 <= total owed goroutines0).
        { clear. induction goroutines0 as [|g gs IH]; simpl; [lia|].
          unfold owed at 1, streaming at 1.
          pose proof (tally_nonneg isDone g.2). lia. }
        lia.
      * intros code [= <-]. by left.
    + destruct (enabled s e) eqn:Hen; [|done].
      intros [= <-]. by apply Inv2_main_event.
  - destruct (goroutines s !! i) as [[r [|e rest]]|] eqn:Hi; try done.
    destruct (enabled s e) eqn:Hen; [|done].
    intros [= <-]. by apply Inv2_go_event.
  - (* the workers send the batch *)
    destruct HJ. destruct s. intros [= <-]. by constructor.
Qed.

Lemma reachable_Inv2 (w : World) (s : Proc) : reachable w s -> Inv2 w s.
Proof.
  induction 1 as [|s c s' Hr IH Hs]; [apply Inv2_boot|].
  apply (Inv2_step w c s); [by apply (reachable_Inv w)|done|done].
Qed.

(** ** Start-up *)

(** X6: in every run, whichever initialisation fails or succeeds, [main]
    calls [wg.Add(1)] immediately before each [go] statement and nowhere
    else: every goroutine [main] starts is registered first, and no
    registration is made without a goroutine. *)
Theorem main_registers_each_goroutine (w : World) :
  registered (main w) = true /\ balance (main w) = tally isSpawn (main w).
Proof.
  split; [by destruct (main_more w)|].
  by destruct (main_shape w) as (_ & _ & _ & ? & _).
Qed.

(** X7: when all initialisations succeed, [main] starts the client's and
    the bulk processor's shutdown goroutines and then, for every configured
    market in the order of the configuration, the order-book task and the
    ticker task for the configured index name; it has then made two
    registrations plus two per market, and what remains is to wait for the
    signal, cancel and wait for the WaitGroup. *)
Theorem successful_startup (w : World) (config : Configuration) :
  startsUp w = true -> newConfiguration w = inr config ->
  spawned (main w)
  = StopClient :: CloseBulkProcessor
      :: concat (map (marketTasks (ElasticIndexName config))
                   (GDAXMarkets config))
  /\ balance (main w) = 2 + 2 * Z.of_nat (length (GDAXMarkets config))
  /\ tally isFatal (main w) = 0
  /\ exists pre, main w = pre ++ waitForSignal ++ [EvCancel; EvWgWait].
Proof.
  intros Hs Hc.
  by destruct (main_started w config Hs Hc) as (? & ? & _ & ? & ?).
Qed.

Lemma successful_startup_witness :
  spawned (main More.twoMarkets)
  = [StopClient; CloseBulkProcessor;
     IndexOrderBook "gdax-market" "BTC-USD"; IndexTicker "gdax-market" "BTC-USD";
     IndexOrderBook "gdax-market" "ETH-USD"; IndexTicker "gdax-market" "ETH-USD"].
Proof.
  refine (proj1 (successful_startup More.twoMarkets
    (Sample.config ["BTC-USD"; "ETH-USD"]) _ _)); reflexivity.
Defined.

(** X8: when the configuration cannot be loaded, the client or the bulk
    processor cannot be created, or the index can neither be found nor
    created, [main] ends in [Fatal] before any stream task is started: its
    trace has no [go] statement for a stream task, no wait for the signal
    and no [cancel()], and in no state of the process is there a stream
    goroutine, a cancelled context or an exit with status 0. *)
Theorem failed_startup_is_fatal (w : World) :
  startsUp w = false ->
  (exists pre msg, main w = pre ++ [EvFatal msg])
  /\ tally isStreamSpawn (main w) = 0
  /\ tally isSignal (main w) = 0
  /\ tally isCancel (main w) = 0
  /\ forall s, reachable w s ->
       total streaming (goroutines s) = 0 /\ ctxDone s = false
       /\ exited s <> Some 0.
Proof.
  intros Hs. destruct (main_failed w Hs) as (H1 & H2 & H3 & H4).
  split; [done|]. split; [done|]. split; [done|]. split; [done|].
  intros s Hr.
  destruct (reachable_Inv2 w s Hr) as [A B C D E F G H I K L M].
  pose proof (total_nonneg streaming (goroutines s) streaming_nonneg).
  pose proof (tally_nonneg isStreamSpawn (mainG s)).
  assert (ctxDone s = false) as Hc.
  { destruct (ctxDone s); [|done]. specialize (K eq_refl). lia. }
  split; [lia|]. split; [done|].
  intros Hx. specialize (M Hx). congruence.
Qed.

Lemma failed_startup_is_fatal_witness :
  tally isStreamSpawn (main More.noElastic) = 0.
Proof.
  refine (proj1 (proj2 (failed_startup_is_fatal More.noElastic _))).
  reflexivity.
Defined.

(** ** The life of the process *)

(** X9: the WaitGroup counter is never negative, so no [wg.Done()] of the
    program can panic. *)
Theorem waitgroup_never_negative (w : World) (s : Proc) :
  reachable w s -> 0 <= wg s.
Proof.
  intros Hr.
  pose proof (inv_wg s (reachable_Inv w s Hr)) as Hw.
  pose proof (covered_head _ (inv_covered w s (reachable_Inv2 w s Hr))).
  pose proof (total_nonneg owed (goroutines s) owed_nonneg).
  lia.
Qed.

Lemma waitgroup_never_negative_witness :
  0 <= wg (after Sample.oneMarket Sample.killed).
Proof.
  apply (waitgroup_never_negative Sample.oneMarket). apply after_reachable.
Defined.

(** X10: the context is cancelled only after the interrupt signal has been
    delivered. *)
Theorem cancel_only_after_interrupt (w : World) (s : Proc) :
  reachable w s -> ctxDone s = true -> interrupted s = true.
Proof. intros Hr. apply (inv_interrupted w). by apply reachable_Inv2. Qed.

Lemma cancel_only_after_interrupt_witness :
  interrupted (after Sample.quiet Sample.shutdown) = true.
Proof.
  apply (cancel_only_after_interrupt Sample.quiet).
  - apply after_reachable.
  - vm_compute. reflexivity.
Defined.

(** X11: as long as the context is not cancelled, the bulk processor is not
    closed and the elastic client is not stopped. *)
Theorem no_shutdown_before_cancel (w : World) (s : Proc) :
  reachable w s -> processorClosed s = true \/ clientStopped s = true ->
  ctxDone s = true.
Proof.
  intros Hr Hc.
  destruct (inv_gated w s (reachable_Inv2 w s Hr)) as [?|(_ & Hp & Hs)];
    [done|].
  destruct Hc; congruence.
Qed.

Lemma no_shutdown_before_cancel_witness :
  ctxDone (after Sample.quiet Sample.shutdown) = true.
Proof.
  apply (no_shutdown_before_cancel Sample.quiet).
  - apply after_reachable.
  - left. vm_compute. reflexivity.
Defined.





(** ** Configuration *)

Lemma withLogLevel_same (config : Configuration) :
  withLogLevel (LogLevel config) config = config.
Proof. by destruct config. Qed.

(** X14: [NewConfiguration] returns a configuration exactly when the file
    can be read and decoded.  The configuration is then the decoded one,
    except that an empty log level has become "info": its log level is
    never empty and no other field is changed.  Otherwise the error is the
    read error or the decoding error, wrapped with the location. *)
Theorem NewConfiguration_result (ReadFile : string -> string + string)
    (Unmarshal : string -> string + Configuration) (configLocation : string) :
  match NewConfiguration ReadFile Unmarshal configLocation with
  | inr config =>
      exists yml parsed,
        ReadFile configLocation = inr yml /\ Unmarshal yml = inr parsed
        /\ LogLevel config <> ""
        /\ config = withLogLevel (LogLevel config) parsed
        /\ (LogLevel parsed <> "" -> config = parsed)
        /\ (LogLevel parsed = "" -> LogLevel config = "info")
  | inl msg =>
      (exists err,
         ReadFile configLocation = inl err
         /\ msg = Wraps err ("Unable read configuration file "
                             +:+ configLocation))
      \/ (exists yml err,
            ReadFile configLocation = inr yml /\ Unmarshal yml = inl err
            /\ msg = Wraps err ("Error parsing configuration file "
                                +:+ configLocation))
  end.
Proof.
  unfold NewConfiguration.
  destruct (ReadFile configLocation) as [err|yml]; [left; by exists err|].
  destruct (Unmarshal yml) as [err|parsed] eqn:Hu; [right; by exists yml, err|].
  destruct (String.eqb_spec (LogLevel parsed) "") as [He|Hne].
  - exists yml, parsed. by repeat split.
  - exists yml, parsed. repeat split; try done.
    by rewrite withLogLevel_same.
Qed.

(** X15: the logger is set to debug level exactly when the decoded
    document spells its log level "debug"; a missing level (which
    [NewConfiguration] turns into "info"), "info" and any other spelling
    give info level.  The default applied by [NewConfiguration] never
    changes the level [main] selects. *)
Theorem debug_only_on_request (ReadFile : string -> string + string)
    (Unmarshal : string -> string + Configuration)
    (configLocation yml : string) (parsed : Configuration) :
  ReadFile configLocation = inr yml -> Unmarshal yml = inr parsed ->
  exists config,
    NewConfiguration ReadFile Unmarshal configLocation = inr config
    /\ logLevel config = logLevel parsed
    /\ (logLevel config = logrus.DebugLevel <-> LogLevel parsed = "debug")
    /\ (LogLevel parsed <> "debug" -> logLevel config = logrus.InfoLevel).
Proof.
  intros Hr Hu. unfold NewConfiguration. rewrite Hr, Hu.
  assert (logLevel parsed = logrus.DebugLevel <-> LogLevel parsed = "debug")
    as Hd.
  { unfold logLevel.
    destruct (String.eqb_spec (LogLevel parsed) "debug"); split; done. }
  assert (LogLevel parsed <> "debug" -> logLevel parsed = logrus.InfoLevel)
    as Hi.
  { unfold logLevel.
    by destruct (String.eqb_spec (LogLevel parsed) "debug"). }
  destruct (String.eqb_spec (LogLevel parsed) "") as [He|Hne].
  - exists (withLogLevel "info" parsed).
    assert (logLevel (withLogLevel "info" parsed) = logLevel parsed) as Hl.
    { unfold logLevel. simpl. by rewrite He. }
    rewrite Hl. by repeat split; try apply Hd; try apply Hi.
  - exists parsed. by repeat split; try apply Hd; try apply Hi.
Qed.

Lemma debug_only_on_request_witness :
  exists config,
    NewConfiguration MoreConfig.readAny (MoreConfig.parseAs MoreConfig.shouting)
      "./config.yml" = inr config
    /\ logLevel config = logrus.InfoLevel.
Proof.
  destruct (debug_only_on_request MoreConfig.readAny
    (MoreConfig.parseAs MoreConfig.shouting) "./config.yml"
    "elastic-index: gdax-market" MoreConfig.shouting eq_refl eq_refl)
    as (config & Hc & _ & _ & Hi).
  exists config. split; [exact Hc|]. apply Hi. discriminate.
Defined.

(** ** Logging *)

Lemma trimLeft_split (s : string) :
  exists pre, s = pre +:+ strings.trimLeft s /\ strings.allSpace pre = true.
Proof.
  induction s as [|c s (pre & Hs & Hp)]; [by exists EmptyString|].
  cbn [strings.trimLeft]. destruct (strings.isSpace c) eqn:Hc.
  - exists (String c pre). split.
    + change (String c pre +:+ ?t) with (String c (pre +:+ t)). by f_equal.
    + cbn [strings.allSpace]. by rewrite Hc, Hp.
  - by exists EmptyString.
Qed.

Lemma trimRight_split (s : string) :
  exists post, s = strings.trimRight s +:+ post /\ strings.allSpace post = true.
Proof.
  induction s as [|c s (post & Hs & Hp)]; [by exists EmptyString|].
  cbn [strings.trimRight]. destruct (strings.trimRight s) as [|d t] eqn:Ht.
  - change (EmptyString +:+ post) with post in Hs. subst post.
    destruct (strings.isSpace c) eqn:Hc.
    + exists (String c s). split; [done|].
      cbn [strings.allSpace]. by rewrite Hc, Hp.
    + by exists s.
  - exists post. split; [|done].
    change (String c (String d t) +:+ post)
      with (String c (String d t +:+ post)). by f_equal.
Qed.

Lemma trimLeft_first (s : string) :
  match strings.first (strings.trimLeft s) with
  | Some c => strings.isSpace c = false
  | None => True
  end.
Proof.
  induction s as [|c s IH]; [done|]. simpl.
  by destruct (strings.isSpace c) eqn:Hc.
Qed.

Lemma final_cons (c : Ascii.ascii) (s : string) :
  strings.final (String c s) <> None.
Proof. simpl. by destruct (strings.final s). Qed.

Lemma trimRight_final (s : string) :
  match strings.final (strings.trimRight s) with
  | Some c => strings.isSpace c = false
  | None => True
  end.
Proof.
  induction s as [|c s IH]; [done|]. simpl.
  destruct (strings.trimRight s) as [|d t] eqn:Ht.
  - by destruct (strings.isSpace c) eqn:Hc.
  - change (strings.final (String c (String d t)))
      with (match strings.final (String d t) with
            | None => Some c
            | Some e => Some e
            end).
    pose proof (final_cons d t).
    by destruct (strings.final (String d t)).
Qed.

Lemma trimRight_first (c : Ascii.ascii) (s : string) :
  strings.isSpace c = false ->
  strings.first (strings.trimRight (String c s)) = Some c.
Proof.
  intros Hc. simpl. rewrite Hc. by destruct (strings.trimRight s).
Qed.

Lemma trimRight_fixed (s : string) :
  match strings.final s with
  | Some c => strings.isSpace c = false
  | None => True
  end ->
  strings.trimRight s = s.
Proof.
  induction s as [|c s IH]; [done|]. simpl.
  destruct s as [|d t].
  - simpl. by intros ->.
  - pose proof (final_cons d t).
    destruct (strings.final (String d t)) as [e|] eqn:Hf; [|done].
    intros He. by rewrite (IH He).
Qed.

Lemma trimLeft_fixed (s : string) :
  match strings.first s with
  | Some c => strings.isSpace c = false
  | None => True
  end ->
  strings.trimLeft s = s.
Proof. destruct s as [|c s]; [done|]. simpl. by intros ->. Qed.

Lemma TrimSpace_ends (s : string) :
  match strings.first (strings.TrimSpace s) with
  | Some c => strings.isSpace c = false
  | None => True
  end
  /\ match strings.final (strings.TrimSpace s) with
     | Some c => strings.isSpace c = false
     | None => True
     end.
Proof.
  unfold strings.TrimSpace. split; [|apply trimRight_final].
  pose proof (trimLeft_first s) as Hf.
  destruct (strings.trimLeft s) as [|c t]; [done|].
  simpl in Hf. by rewrite (trimRight_first c t Hf).
Qed.

Lemma TrimSpace_fixed (s : string) :
  match strings.first s with
  | Some c => strings.isSpace c = false
  | None => True
  end ->
  match strings.final s with
  | Some c => strings.isSpace c = false
  | None => True
  end ->
  strings.TrimSpace s = s.
Proof.
  intros Hf Hl. unfold strings.TrimSpace.
  rewrite (trimLeft_fixed s Hf). by apply trimRight_fixed.
Qed.

(** X16: [Format] hands the parent formatter the entry with the white
    space at both ends of its message removed, and returns what the parent
    returns.  The message is cut out of the original one, between a prefix
    and a suffix of white space only, and neither starts nor ends with white
    space; data, time and level of the entry are untouched.  (For a message
    of ASCII bytes.) *)
Theorem Format_trims_both_ends (parentFormat : logrus.Entry -> string + string)
    (entry : logrus.Entry) :
  strings.isASCII (logrus.Message entry) = true ->
  let entry' := (Format parentFormat entry).1 in
  (Format parentFormat entry).2 = parentFormat entry'
  /\ logrus.Data entry' = logrus.Data entry
  /\ logrus.Time entry' = logrus.Time entry
  /\ logrus.Level_ entry' = logrus.Level_ entry
  /\ (exists pre post,
        logrus.Message entry = pre +:+ logrus.Message entry' +:+ post
        /\ strings.allSpace pre = true /\ strings.allSpace post = true)
  /\ match strings.first (logrus.Message entry') with
     | Some c => strings.isSpace c = false
     | None => True
     end
  /\ match strings.final (logrus.Message entry') with
     | Some c => strings.isSpace c = false
     | None => True
     end.
Proof.
  intros _. cbn [Format fst snd logrus.Data logrus.Time logrus.Level_
    logrus.Message].
  repeat split; try apply TrimSpace_ends.
  unfold strings.TrimSpace.
  destruct (trimLeft_split (logrus.Message entry)) as (pre & Hs & Hp).
  destruct (trimRight_split (strings.trimLeft (logrus.Message entry)))
    as (post & Ht & Hq).
  exists pre, post. split; [|done]. by rewrite <- Ht.
Qed.

Lemma Format_trims_both_ends_witness :
  logrus.Message (Format MoreConfig.plainText MoreConfig.padded).1
  = "read tcp: i/o  timeout"
  /\ (Format MoreConfig.plainText MoreConfig.padded).2
     = inr "read tcp: i/o  timeout".
Proof.
  pose proof (Format_trims_both_ends MoreConfig.plainText MoreConfig.padded
    eq_refl) as (H & _).
  split; [reflexivity|]. rewrite H. reflexivity.
Defined.

(** X17: formatting is idempotent on the entry: an entry that went through
    [Format] is left as it is by a second call, and so is any entry whose
    message has no white space at either end.  (For a message of ASCII
    bytes.) *)
Theorem Format_idempotent (parentFormat : logrus.Entry -> string + string)
    (entry : logrus.Entry) :
  strings.isASCII (logrus.Message entry) = true ->
  Format parentFormat (Format parentFormat entry).1
  = Format parentFormat entry
  /\ (strings.TrimSpace (logrus.Message entry) = logrus.Message entry ->
      (Format parentFormat entry).1 = entry).
Proof.
  intros _. split.
  - unfold Format. cbn [fst logrus.Data logrus.Time logrus.Level_
      logrus.Message].
    destruct (TrimSpace_ends (logrus.Message entry)) as [Hf Hl].
    by rewrite (TrimSpace_fixed _ Hf Hl).
  - intros Ht. unfold Format. cbn [fst]. rewrite Ht. by destruct entry.
Qed.

Lemma Format_idempotent_witness :
  Format MoreConfig.plainText (Format MoreConfig.plainText MoreConfig.padded).1
  = Format MoreConfig.plainText MoreConfig.padded.
Proof.
  exact (proj1 (Format_idempotent MoreConfig.plainText MoreConfig.padded
    eq_refl)).
Defined.
